(** * A shallow embedding of the faucet bot (bot.py)

    The bot answers Telegram updates: [/start] opens a conversation that
    asks for a FaucetPay e-mail address, the e-mail handler validates the
    address, calls the FaucetPay API once, records a successful claim in the
    in-memory dictionary [user_claims] and in the file [EMAIL_FILE], and
    [/status] reports the state of the 24 hour cooldown.

    Modelling conventions.
    - Python [str] is [string]; a character is a code point below 256.
    - Python [float] readings of [time.time()] are rationals ([Q]) with exact
      arithmetic; NaN and the infinities are not represented.
    - [user_claims] is a [gmap string Claim.t], keyed by [str(user.id)].
    - The handlers are written in a small state-and-exception monad over the
      world (the dictionary, the file, and the trace of effects); what the
      outside supplies (clock readings, the HTTP outcome, how the file
      system calls end, the formatted date) is an explicit argument. An
      append that fails may have created the file or put a part of the
      line into it.
    - [json.dumps] and [json.loads] belong to Python's library: they are
      section variables; the theorems on the history file say what they
      need of them, and the codec of [MiniJson] is shown to provide it. *)

From Stdlib Require Import ZArith QArith Qround Lqa List Ascii String Bool Lia.
From Stdlib Require Import DecimalString DecimalZ DecimalFacts.
From stdpp Require Import base option strings gmap.

Local Open Scope string_scope.
Local Open Scope list_scope.
Local Open Scope bool_scope.

(** ** Text: the part of Python's [str] the bot uses *)

Module Text.

Definition code (c : ascii) : N := N_of_ascii c.

Definition in_range (lo hi : N) (c : ascii) : bool :=
  (lo <=? code c)%N && (code c <=? hi)%N.

Definition LF : ascii := ascii_of_N 10.
Definition CR : ascii := ascii_of_N 13.

(** [str.isspace] on one character, for code points below 256:
    TAB..CR, FS..US, SPACE, NEL and NBSP. *)
Definition isspace (c : ascii) : bool :=
  in_range 9 13 c || in_range 28 31 c || (code c =? 32)%N
  || (code c =? 133)%N || (code c =? 160)%N.

Fixpoint lstrip (s : string) : string :=
  match s with
  | EmptyString => EmptyString
  | String c s' => if isspace c then lstrip s' else s
  end.

Fixpoint rstrip (s : string) : string :=
  match s with
  | EmptyString => EmptyString
  | String c s' =>
      match rstrip s' with
      | EmptyString => if isspace c then EmptyString else String c EmptyString
      | r => String c r
      end
  end.

(** [s.strip()] *)
Definition strip (s : string) : string := rstrip (lstrip s).

(** [c.lower()] for code points below 256: A-Z and the Latin-1 capitals
    (all of U+00C0..U+00DE but the multiplication sign) move up by 32. *)
Definition lower_char (c : ascii) : ascii :=
  if in_range 65 90 c || (in_range 192 222 c && negb (code c =? 215)%N)
  then ascii_of_N (code c + 32) else c.

Fixpoint lower (s : string) : string :=
  match s with
  | EmptyString => EmptyString
  | String c s' => String (lower_char c) (lower s')
  end.

Fixpoint all_chars (p : ascii -> bool) (s : string) : bool :=
  match s with
  | EmptyString => true
  | String c s' => p c && all_chars p s'
  end.

(** [s[:n]] *)
Fixpoint take (n : nat) (s : string) : string :=
  match n, s with
  | S n', String c s' => String c (take n' s')
  | _, _ => EmptyString
  end.

(** [str(i)] for a Python [int]. *)
Definition str_of_int (i : Z) : string := NilZero.string_of_int (Z.to_int i).

(** Reading a text file opened with the default [newline=None]: the
    sequences CR LF and CR both arrive as LF. *)
Fixpoint universal_newlines (s : string) : string :=
  match s with
  | EmptyString => EmptyString
  | String c s' =>
      if Ascii.eqb c CR then
        match s' with
        | String c' s'' =>
            if Ascii.eqb c' LF then String LF (universal_newlines s'')
            else String LF (universal_newlines s')
        | EmptyString => String LF EmptyString
        end
      else String c (universal_newlines s')
  end.

(** [for line in f]: the lines of the text, each with its terminating LF,
    the last one without when the text does not end in LF. *)
Fixpoint split_lines (s : string) : list string :=
  match s with
  | EmptyString => []
  | String c s' =>
      if Ascii.eqb c LF then String LF EmptyString :: split_lines s'
      else match split_lines s' with
           | [] => [String c EmptyString]
           | l :: ls => String c l :: ls
           end
  end.

Definition readlines (content : string) : list string :=
  split_lines (universal_newlines content).

End Text.

(** ** Regular expressions: the part of [re] the bot uses *)

Module Re.

(** The nodes the pattern of [is_valid_email] compiles to. A character
    class with [+] is [MaxRepeat 1], with [{2,}] it is [MaxRepeat 2]. *)
Inductive node : Type :=
  | AtBeginning                              (* ^ *)
  | AtEnd                                    (* $ *)
  | Literal (c : ascii)
  | MaxRepeat (min : nat) (cls : ascii -> bool).

(** [$] without MULTILINE: the end of the string, or just before a line
    feed that is the last character. *)
Definition at_end (s : string) : bool :=
  match s with
  | EmptyString => true
  | String c EmptyString => Ascii.eqb c Text.LF
  | _ => false
  end.

(** A greedy repetition followed by the continuation [k]: take one more
    character of the class, and fall back to [k] when that fails. *)
Fixpoint max_repeat (cls : ascii -> bool) (k : bool -> string -> bool)
    (min : nat) (at_start : bool) (s : string) : bool :=
  match s with
  | String c s' => cls c && max_repeat cls k (Nat.pred min) false s'
  | EmptyString => false
  end
  || match min with O => k at_start s | S _ => false end.

(** [at_start] says whether the position is the start of the string. *)
Fixpoint matches (pat : list node) (at_start : bool) (s : string) : bool :=
  match pat with
  | [] => true
  | AtBeginning :: rest => at_start && matches rest at_start s
  | AtEnd :: rest => at_end s && matches rest at_start s
  | Literal c :: rest =>
      match s with
      | String c' s' => Ascii.eqb c c' && matches rest false s'
      | EmptyString => false
      end
  | MaxRepeat min cls :: rest => max_repeat cls (matches rest) min at_start s
  end.

(** [bool(re.match(pat, s))] *)
Definition re_match (pat : list node) (s : string) : bool := matches pat true s.

End Re.

(** ** E-mail validation *)

Definition is_lower (c : ascii) : bool := Text.in_range 97 122 c.
Definition is_upper (c : ascii) : bool := Text.in_range 65 90 c.
Definition is_digit (c : ascii) : bool := Text.in_range 48 57 c.
Definition is_alpha (c : ascii) : bool := is_lower c || is_upper c.

Definition one_of (cs : string) (c : ascii) : bool :=
  existsb (Ascii.eqb c) (list_ascii_of_string cs).

(** [[a-zA-Z0-9._%+-]] *)
Definition local_class (c : ascii) : bool :=
  is_lower c || is_upper c || is_digit c || one_of "._%+-" c.

(** [[a-zA-Z0-9.-]] *)
Definition domain_class (c : ascii) : bool :=
  is_lower c || is_upper c || is_digit c || one_of ".-" c.

(** [^[a-zA-Z0-9._%+-]+@[a-zA-Z0-9.-]+\.[a-zA-Z]{2,}$] *)
Definition pattern : list Re.node :=
  [ Re.AtBeginning;
    Re.MaxRepeat 1 local_class;
    Re.Literal "@";
    Re.MaxRepeat 1 domain_class;
    Re.Literal ".";
    Re.MaxRepeat 2 is_alpha;
    Re.AtEnd ].

Definition is_valid_email (email : string) : bool := Re.re_match pattern email.

(** The shape the specification describes: [local@domain.tld]. *)
Definition email_shape (s : string) : Prop :=
  exists l d t : string,
    s = l +:+ "@" +:+ d +:+ "." +:+ t /\
    (1 <= String.length l)%nat /\ Text.all_chars local_class l = true /\
    (1 <= String.length d)%nat /\ Text.all_chars domain_class d = true /\
    (2 <= String.length t)%nat /\ Text.all_chars is_alpha t = true.

(** ** Python values *)

(** What [json.loads] and [response.json()] return. A dictionary is the
    list of its items in insertion order; its keys are distinct. *)
#[warnings="-register-all"]
Inductive json : Type :=
  | JNull
  | JBool (b : bool)
  | JInt (i : Z)
  | JFloat (x : Q)
  | JStr (s : string)
  | JArr (l : list json)
  | JObj (d : list (string * json)).

Inductive exn : Type :=
  | AsyncioTimeoutError
  | ClientError
  | AttributeError
  | TypeError
  | OSError
  | JSONDecodeError.

Fixpoint dict_get (d : list (string * json)) (key : string) : option json :=
  match d with
  | [] => None
  | (k, v) :: d' => if String.eqb k key then Some v else dict_get d' key
  end.

(** [v.get(key, default)]: only a dictionary has the method. *)
Definition py_get (v : json) (key : string) (dflt : json) : exn + json :=
  match v with
  | JObj d => inr (default dflt (dict_get d key))
  | _ => inl AttributeError
  end.

(** [v == n] for an integer literal [n]. *)
Definition py_eq_int (v : json) (n : Z) : bool :=
  match v with
  | JInt i => (i =? n)%Z
  | JFloat x => Qeq_bool x (inject_Z n)
  | JBool b => ((if b then 1 else 0) =? n)%Z
  | _ => false
  end.

(** [x < y], [x // y], [x % y] and [int(x)] on floats. *)
Definition py_lt (x y : Q) : bool := negb (Qle_bool y x).
Definition py_gt (x y : Q) : bool := py_lt y x.
Definition floordiv (x y : Q) : Q := inject_Z (Qfloor (x / y)).
Definition py_mod (x y : Q) : Q := x - y * floordiv x y.
Definition py_int (x : Q) : Z := if py_lt x 0 then Qceiling x else Qfloor x.

(** [tx_id[:12] + '...' if len(tx_id) > 12 else tx_id]. [len] fails on
    numbers, booleans and [None]; a long list cannot be added to a string
    and a dictionary cannot be sliced. *)
Definition shorten (tx_id : json) : exn + json :=
  match tx_id with
  | JStr s =>
      inr (JStr (if (12 <? String.length s)%nat then Text.take 12 s +:+ "..." else s))
  | JArr l => if (12 <? List.length l)%nat then inl TypeError else inr tx_id
  | JObj d => if (12 <? List.length d)%nat then inl TypeError else inr tx_id
  | _ => inl TypeError
  end.

(** ** Constants *)

Definition CURRENCY : string := "DGB".
Definition AMOUNT : string := "0.00000001".
Definition DENGO : string := "1".
Definition WAITING_FOR_EMAIL : Z := 1.
(** [ConversationHandler.END] *)
Definition END : Z := -1.

(** ** The world and its effects *)

Module User.
(** [update.effective_user] *)
Record t : Type := Build {
  id : Z;
  username : option string;
  first_name : string;
  last_name : option string }.
End User.

Module Claim.
(** A value of [user_claims]: [{'last_claim': ..., 'email': ...}]. Every
    value the bot stores has both keys. *)
Record t : Type := Build {
  last_claim : Q;
  email : string }.
End Claim.

Inductive message : Type :=
  | CooldownActive (hours minutes : Z)
  | Welcome (name : string)
  | InvalidEmailFormat
  | PleaseWait
  | Processing
  | RewardSent (amount email : string) (short_tx : json)
  | TransactionFailed (error_msg : json)
  | RequestTimeout
  | ServiceUnavailable
  | StatusCooldown (email : string) (hours minutes : Z)
  | ReadyToClaim
  | NoClaimsYet.

Inductive log_record : Type :=
  | EmailSaved (email : string) (user_id : Z)
  | ErrorSavingEmail (e : exn)
  | BackupEmailLog (email : string) (user_id : Z)
  | ErrorReadingEmails (e : exn)
  | ApiResponse (result : json)
  | UnexpectedError (e : exn).

Inductive event : Type :=
  | ReplyText (m : message)                  (* update.message.reply_text *)
  | EditText (m : message)                   (* processing_msg.edit_text *)
  | HttpPost (currency to amount : string)   (* session.post(FAUCETPAY_API_URL, ...) *)
  | FileWrite (text : string)                (* f.write on EMAIL_FILE *)
  | FileRemove                               (* os.remove(EMAIL_FILE) *)
  | LogInfo (r : log_record)
  | LogError (r : log_record).

(** [email_file] is the text of [EMAIL_FILE], [None] while the file does
    not exist. *)
Record world : Type := World {
  user_claims : gmap string Claim.t;
  email_file : option string }.

(** A computation changes the world, leaves a trace of effects and either
    returns or raises. What was done before a raise stays done. *)
Definition M (A : Type) : Type := world -> (exn + A) * world * list event.

Definition ret {A} (a : A) : M A := fun w => (inr a, w, []).
Definition raise {A} (e : exn) : M A := fun w => (inl e, w, []).
Definition bind {A B} (m : M A) (f : A -> M B) : M B :=
  fun w =>
    match m w with
    | (inl e, w1, t1) => (inl e, w1, t1)
    | (inr a, w1, t1) =>
        match f a w1 with (r, w2, t2) => (r, w2, t1 ++ t2) end
    end.
Definition try_except {A} (body : M A) (handler : exn -> M A) : M A :=
  fun w =>
    match body w with
    | (inl e, w1, t1) =>
        match handler e w1 with (r, w2, t2) => (r, w2, t1 ++ t2) end
    | (inr a, w1, t1) => (inr a, w1, t1)
    end.
Definition emit (ev : event) : M unit := fun w => (inr tt, w, [ev]).
Definition get : M world := fun w => (inr w, w, []).
Definition put (w : world) : M unit := fun _ => (inr tt, w, []).
Definition lift {A} (r : exn + A) : M A := fun w => (r, w, []).

#[export] Instance M_ret : MRet M := @ret.
#[export] Instance M_bind : MBind M := fun A B f m => bind m f.

(** An operating-system call that goes well or raises, as the outside
    decides. *)
Definition os_call (ok : bool) : M unit :=
  if ok then ret tt else raise OSError.

Definition returned {A} (r : (exn + A) * world * list event) : exn + A := r.1.1.
Definition world_of {A} (r : (exn + A) * world * list event) : world := r.1.2.
Definition trace_of {A} (r : (exn + A) * world * list event) : list event := r.2.

(** How [open(EMAIL_FILE, 'a')] followed by [f.write(text)] ends, as the
    outside decides. A write that raises may have put a part of the text
    into the file already. *)
Inductive write_outcome : Type :=
  | Written                  (* makedirs, open, write and close went well *)
  | NotOpened                (* makedirs or open raised: the file is as it was *)
  | Interrupted (n : nat).   (* the file was opened, and created when missing;
                                write or close raised when [n] characters of
                                the text had reached the file *)

(** What one run of the e-mail handler gets from outside the program. *)
Inductive http_outcome : Type :=
  | Responded (result : json)   (* [await response.json()] returned *)
  | TimedOut                    (* [asyncio.TimeoutError] after 10 seconds *)
  | Failed.                     (* any other error of the request or its decoding *)

Module Env.
Record t : Type := Build {
  time_at_throttle : Q;         (* [time.time()] in the 60 second check *)
  payout : http_outcome;
  strftime_now : string;        (* [datetime.now().strftime(...)] *)
  write : write_outcome;        (* how the append to [EMAIL_FILE] ends *)
  time_at_record : Q }.         (* [time.time()] when the claim is stored *)

(** Do makedirs, open and write succeed. *)
Definition write_ok (env : t) : bool :=
  match write env with Written => true | _ => false end.
End Env.

Section Bot.

(** [json.dumps(v, ensure_ascii=False)] and [json.loads(s)], the latter
    [None] where Python raises. *)
Variable dumps : json -> string.
Variable loads : string -> option json.

(** ** EmailStorage *)

Definition opt_str (o : option string) : json :=
  match o with Some s => JStr s | None => JNull end.

(** The dictionary [entry] of [save_email]. *)
Definition entry_of (timestamp email : string) (user_data : User.t) : json :=
  JObj [ ("timestamp", JStr timestamp);
         ("email", JStr email);
         ("user_id", JInt (User.id user_data));
         ("username", opt_str (User.username user_data));
         ("first_name", JStr (User.first_name user_data));
         ("last_name", opt_str (User.last_name user_data)) ].

(** [open(EMAIL_FILE, 'a')] then [f.write(text)]: the file is created when
    it is missing and the text goes to its end. When the write is
    interrupted, the part that got through stays in the file and the
    error is raised. *)
Definition append_file (outcome : write_outcome) (text : string) : M unit :=
  match outcome with
  | Written =>
      w ← get;
      put (World (user_claims w) (Some (default EmptyString (email_file w) +:+ text)));;
      emit (FileWrite text)
  | NotOpened => raise OSError
  | Interrupted n =>
      w ← get;
      put (World (user_claims w)
                 (Some (default EmptyString (email_file w) +:+ Text.take n text)));;
      raise OSError
  end.

Definition save_to_alternative (email : string) (user_data : User.t) : M bool :=
  try_except
    (emit (LogInfo (BackupEmailLog email (User.id user_data)));; mret true)
    (fun _ => mret false).

Definition save_email (outcome : write_outcome) (timestamp email : string)
    (user_data : User.t) : M bool :=
  try_except
    (append_file outcome
       (dumps (entry_of timestamp email user_data) +:+ String Text.LF EmptyString);;
     emit (LogInfo (EmailSaved email (User.id user_data)));;
     mret true)
    (fun e =>
       emit (LogError (ErrorSavingEmail e));;
       save_to_alternative email user_data).

(** The loop of [get_all_emails] over the lines of the file. *)
Fixpoint load_lines (lines : list string) (emails : list json) : exn + list json :=
  match lines with
  | [] => inr emails
  | line :: rest =>
      match Text.strip line with
      | EmptyString => load_lines rest emails
      | stripped =>
          match loads stripped with
          | Some v => load_lines rest (emails ++ [v])
          | None => inl JSONDecodeError
          end
      end
  end.

Definition get_all_emails (ok : bool) : M (list json) :=
  try_except
    (w ← get;
     match email_file w with
     | None => mret []
     | Some content =>
         os_call ok;;
         lift (load_lines (Text.readlines content) [])
     end)
    (fun e => emit (LogError (ErrorReadingEmails e));; mret []).

Definition clear_emails (ok : bool) : M bool :=
  try_except
    (w ← get;
     match email_file w with
     | Some _ =>
         os_call ok;;
         put (World (user_claims w) None);;
         emit FileRemove;;
         mret true
     | None => mret true
     end)
    (fun _ => mret false).

(** ** The handlers *)

Definition user_key (user : User.t) : string := Text.str_of_int (User.id user).

(** [hours] and [minutes] of a remaining time, as both handlers compute
    them. *)
Definition hours_of (time_left : Q) : Z := py_int (floordiv time_left 3600).
Definition minutes_of (time_left : Q) : Z :=
  py_int (floordiv (py_mod time_left 3600) 60).

(** [a or b] on strings: the empty string is false. *)
Definition py_or (a b : string) : string :=
  match a with EmptyString => b | _ => a end.

Definition welcome (user : User.t) : M Z :=
  emit (ReplyText (Welcome (py_or (User.first_name user) "there")));;
  mret WAITING_FOR_EMAIL.

Definition start_command (user : User.t) (now : Q) : M Z :=
  let user_id := user_key user in
  w ← get;
  match user_claims w !! user_id with
  | Some record =>
      let last_claim := Claim.last_claim record in
      let cooldown := 86400%Q in
      let time_left := (cooldown - (now - last_claim))%Q in
      if py_gt time_left 0 then
        emit (ReplyText (CooldownActive (hours_of time_left) (minutes_of time_left)));;
        mret END
      else welcome user
  | None => welcome user
  end.

(** [session.post(...)] and [response.json()]. *)
Definition post (to : string) (outcome : http_outcome) : M json :=
  emit (HttpPost CURRENCY to AMOUNT);;
  match outcome with
  | Responded result => mret result
  | TimedOut => raise AsyncioTimeoutError
  | Failed => raise ClientError
  end.

Definition handle_email (user : User.t) (text : string) (env : Env.t) : M Z :=
  let email := Text.lower (Text.strip text) in
  let user_id := user_key user in
  if negb (is_valid_email email) then
    emit (ReplyText InvalidEmailFormat);;
    mret WAITING_FOR_EMAIL
  else
    w ← get;
    if match user_claims w !! user_id with
       | Some record =>
           py_lt (Env.time_at_throttle env - Claim.last_claim record)%Q 60
       | None => false
       end
    then
      emit (ReplyText PleaseWait);;
      mret END
    else
      emit (ReplyText Processing);;
      try_except
        (result ← post email (Env.payout env);
         emit (LogInfo (ApiResponse result));;
         status ← lift (py_get result "status" JNull);
         if py_eq_int status 200 then
           save_email (Env.write env) (Env.strftime_now env) email user;;
           w ← get;
           put (World (<[user_id := Claim.Build (Env.time_at_record env) email]>
                         (user_claims w))
                      (email_file w));;
           tx_id ← lift (py_get result "payout_user_hash" (JStr "N/A"));
           short_tx ← lift (shorten tx_id);
           emit (EditText (RewardSent AMOUNT email short_tx))
         else
           error_msg ← lift (py_get result "message" (JStr "Unknown error"));
           emit (EditText (TransactionFailed error_msg)))
        (fun e =>
           match e with
           | AsyncioTimeoutError => emit (EditText RequestTimeout)
           | _ =>
               emit (LogError (UnexpectedError e));;
               emit (EditText ServiceUnavailable)
           end);;
      mret END.

Definition status_command (user : User.t) (now : Q) : M unit :=
  let user_id := user_key user in
  w ← get;
  match user_claims w !! user_id with
  | Some record =>
      let last_claim := Claim.last_claim record in
      let email := Claim.email record in
      let time_since := (now - last_claim)%Q in
      let cooldown := 86400%Q in
      if py_lt time_since cooldown then
        let time_left := (cooldown - time_since)%Q in
        emit (ReplyText (StatusCooldown email (hours_of time_left) (minutes_of time_left)))
      else
        emit (ReplyText ReadyToClaim)
  | None => emit (ReplyText NoClaimsYet)
  end.

End Bot.

(** ** A JSON codec

    An executable codec for the values without floats, in the format of
    [json.dumps(v, ensure_ascii=False)]: items separated by a comma and a
    space, keys by a colon and a space, and in strings the quote, the
    backslash and the control characters escaped. It instantiates the
    section variables [dumps] and [loads] in the examples. *)

Module MiniJson.

Definition dquote : ascii := ascii_of_N 34.
Definition backslash : ascii := ascii_of_N 92.

Definition hex_digit (n : N) : ascii :=
  ascii_of_N (if (n <? 10)%N then 48 + n else 87 + n).

Definition escape_char (c : ascii) : string :=
  let n := Text.code c in
  if (n =? 34)%N then String backslash (String dquote EmptyString) else
  if (n =? 92)%N then String backslash (String backslash EmptyString) else
  if (n =? 8)%N then "\b" else
  if (n =? 12)%N then "\f" else
  if (n =? 10)%N then "\n" else
  if (n =? 13)%N then "\r" else
  if (n =? 9)%N then "\t" else
  if (n <? 32)%N then
    "\u00" +:+ String (hex_digit (n / 16)) (String (hex_digit (n mod 16)) EmptyString)
  else String c EmptyString.

Fixpoint escape (s : string) : string :=
  match s with
  | EmptyString => EmptyString
  | String c s' => escape_char c +:+ escape s'
  end.

Definition quote (s : string) : string :=
  String dquote (escape s +:+ String dquote EmptyString).

Fixpoint join (sep : string) (l : list string) : string :=
  match l with
  | [] => EmptyString
  | [x] => x
  | x :: rest => x +:+ sep +:+ join sep rest
  end.

Fixpoint dumps (v : json) : string :=
  match v with
  | JNull => "null"
  | JBool b => if b then "true" else "false"
  | JInt i => Text.str_of_int i
  | JFloat x => Text.str_of_int (Qfloor x) +:+ ".0"   (* the bot writes none *)
  | JStr s => quote s
  | JArr l => "[" +:+ join ", " (map dumps l) +:+ "]"
  | JObj d =>
      "{" +:+ join ", " (map (fun kv => quote kv.1 +:+ ": " +:+ dumps kv.2) d) +:+ "}"
  end.

(** *** Reading *)

Definition is_ws (c : ascii) : bool :=
  let n := Text.code c in
  (n =? 32)%N || (n =? 9)%N || (n =? 10)%N || (n =? 13)%N.

Fixpoint skip_ws (s : string) : string :=
  match s with
  | String c s' => if is_ws c then skip_ws s' else s
  | EmptyString => EmptyString
  end.

Definition unhex (c : ascii) : option N :=
  let n := Text.code c in
  if is_digit c then Some (n - 48)%N
  else if Text.in_range 97 102 c then Some (n - 87)%N
  else if Text.in_range 65 70 c then Some (n - 55)%N
  else None.

Definition unhex4 (a b c d : ascii) : option N :=
  match unhex a, unhex b, unhex c, unhex d with
  | Some x, Some y, Some z, Some t => Some (((x * 16 + y) * 16 + z) * 16 + t)%N
  | _, _, _, _ => None
  end.

Definition unescape (e : ascii) : option ascii :=
  let n := Text.code e in
  if (n =? 34)%N || (n =? 92)%N || (n =? 47)%N then Some e
  else if Ascii.eqb e "b" then Some (ascii_of_N 8)
  else if Ascii.eqb e "f" then Some (ascii_of_N 12)
  else if Ascii.eqb e "n" then Some (ascii_of_N 10)
  else if Ascii.eqb e "r" then Some (ascii_of_N 13)
  else if Ascii.eqb e "t" then Some (ascii_of_N 9)
  else None.

Definition cons_to (c : ascii) (r : option (string * string)) : option (string * string) :=
  match r with
  | Some (str, rest) => Some (String c str, rest)
  | None => None
  end.

(** A string literal, from after its opening quote to its closing one. *)
Fixpoint parse_string (s : string) : option (string * string) :=
  match s with
  | EmptyString => None
  | String c s' =>
      if Ascii.eqb c dquote then Some (EmptyString, s')
      else if Ascii.eqb c backslash then
        match s' with
        | String e s'' =>
            if Ascii.eqb e "u" then
              match s'' with
              | String h1 (String h2 (String h3 (String h4 r))) =>
                  match unhex4 h1 h2 h3 h4 with
                  | Some n =>
                      if (n <? 256)%N then cons_to (ascii_of_N n) (parse_string r)
                      else None
                  | None => None
                  end
              | _ => None
              end
            else
              match unescape e with
              | Some ch => cons_to ch (parse_string s'')
              | None => None
              end
        | EmptyString => None
        end
      else if (Text.code c <? 32)%N then None
      else cons_to c (parse_string s')
  end.

Fixpoint span_digits (s : string) : string * string :=
  match s with
  | String c s' =>
      if is_digit c then
        match span_digits s' with (ds, rest) => (String c ds, rest) end
      else (EmptyString, s)
  | EmptyString => (EmptyString, EmptyString)
  end.

(** An integer: an optional minus sign and digits without a leading zero.
    A fraction or an exponent makes a float, which this codec does not
    read. *)
Definition parse_int (s : string) : option (json * string) :=
  let '(sign, s1) :=
    match s with
    | String c s' => if Ascii.eqb c "-" then ("-", s') else (EmptyString, s)
    | EmptyString => (EmptyString, s)
    end in
  match span_digits s1 with
  | (EmptyString, _) => None
  | (String d ds as digits, rest) =>
      if Ascii.eqb d "0" && negb (String.eqb ds EmptyString) then None
      else if match rest with
              | String c _ => one_of ".eE" c
              | EmptyString => false
              end then None
      else match NilZero.int_of_string (sign +:+ digits) with
           | Some n => Some (JInt (Z.of_int n), rest)
           | None => None
           end
  end.

Fixpoint strip_prefix (word s : string) : option string :=
  match word with
  | EmptyString => Some s
  | String w word' =>
      match s with
      | String c s' => if Ascii.eqb w c then strip_prefix word' s' else None
      | EmptyString => None
      end
  end.

Definition expect (word : string) (v : json) (s : string) : option (json * string) :=
  match strip_prefix word s with
  | Some rest => Some (v, rest)
  | None => None
  end.

(** [d[key] = v] *)
Fixpoint dict_set (d : list (string * json)) (key : string) (v : json) :
    list (string * json) :=
  match d with
  | [] => [(key, v)]
  | (k, x) :: d' => if String.eqb k key then (k, v) :: d' else (k, x) :: dict_set d' key v
  end.

Fixpoint parse_elements (value : string -> option (json * string)) (n : nat)
    (s : string) (acc : list json) : option (list json * string) :=
  match n with
  | O => None
  | S n' =>
      match value s with
      | Some (v, rest) =>
          match skip_ws rest with
          | String c r =>
              if Ascii.eqb c "," then parse_elements value n' r (acc ++ [v])
              else if Ascii.eqb c "]" then Some (acc ++ [v], r)
              else None
          | EmptyString => None
          end
      | None => None
      end
  end.

Fixpoint parse_members (value : string -> option (json * string)) (n : nat)
    (s : string) (acc : list (string * json)) :
    option (list (string * json) * string) :=
  match n with
  | O => None
  | S n' =>
      match skip_ws s with
      | String q s1 =>
          if Ascii.eqb q dquote then
            match parse_string s1 with
            | Some (key, s2) =>
                match skip_ws s2 with
                | String c s3 =>
                    if Ascii.eqb c ":" then
                      match value s3 with
                      | Some (v, rest) =>
                          match skip_ws rest with
                          | String c' r =>
                              if Ascii.eqb c' ","
                              then parse_members value n' r (dict_set acc key v)
                              else if Ascii.eqb c' "}"
                              then Some (dict_set acc key v, r)
                              else None
                          | EmptyString => None
                          end
                      | None => None
                      end
                    else None
                | EmptyString => None
                end
            | None => None
            end
          else None
      | EmptyString => None
      end
  end.

Fixpoint parse_value (fuel : nat) (s : string) : option (json * string) :=
  match fuel with
  | O => None
  | S fuel' =>
      match skip_ws s with
      | EmptyString => None
      | String c s' as s0 =>
          if Ascii.eqb c dquote then
            match parse_string s' with
            | Some (str, rest) => Some (JStr str, rest)
            | None => None
            end
          else if Ascii.eqb c "[" then
            match skip_ws s' with
            | String c' r =>
                if Ascii.eqb c' "]" then Some (JArr [], r)
                else match parse_elements (parse_value fuel') (String.length s') s' [] with
                     | Some (l, rest) => Some (JArr l, rest)
                     | None => None
                     end
            | EmptyString => None
            end
          else if Ascii.eqb c "{" then
            match skip_ws s' with
            | String c' r =>
                if Ascii.eqb c' "}" then Some (JObj [], r)
                else match parse_members (parse_value fuel') (String.length s') s' [] with
                     | Some (d, rest) => Some (JObj d, rest)
                     | None => None
                     end
            | EmptyString => None
            end
          else if Ascii.eqb c "n" then expect "null" JNull s0
          else if Ascii.eqb c "t" then expect "true" (JBool true) s0
          else if Ascii.eqb c "f" then expect "false" (JBool false) s0
          else parse_int s0
      end
  end.

(** What may follow the digits of an integer. *)
Definition ends_number (rest : string) : Prop :=
  match rest with
  | String c _ => is_digit c = false /\ one_of ".eE" c = false
  | EmptyString => True
  end.

Definition loads (s : string) : option json :=
  match parse_value (S (String.length s)) s with
  | Some (v, rest) =>
      match skip_ws rest with
      | EmptyString => Some v
      | _ => None
      end
  | None => None
  end.

End MiniJson.

(** ** The specification's vocabulary *)

(** The eligibility check in the words of the specification: eligible and
    nothing remaining without a record; otherwise eligible when at least
    [COOLDOWN_SECONDS] have passed, and what is left of them remains. *)
Definition COOLDOWN_SECONDS : Q := 86400.

Definition checkEligibility (claims : gmap string Claim.t) (user_id : string)
    (now : Q) : bool * Q :=
  match claims !! user_id with
  | None => (true, 0%Q)
  | Some record =>
      let elapsed := (now - Claim.last_claim record)%Q in
      (Qle_bool COOLDOWN_SECONDS elapsed,
       if py_lt 0 (COOLDOWN_SECONDS - elapsed) then (COOLDOWN_SECONDS - elapsed)%Q else 0%Q)
  end.

(** The payout result is Success: the response is a dictionary whose
    [status] equals 200. *)
Definition payout_success (outcome : http_outcome) : bool :=
  match outcome with
  | Responded (JObj d) => py_eq_int (default JNull (dict_get d "status")) 200
  | _ => false
  end.

(** The attempt gets as far as the payout call: the address is valid and
    the 60 second check lets it through. *)
Definition reaches_payout (user : User.t) (text : string) (env : Env.t)
    (w : world) : Prop :=
  is_valid_email (Text.lower (Text.strip text)) = true /\
  forall record, user_claims w !! user_key user = Some record ->
    (60 <= Env.time_at_throttle env - Claim.last_claim record)%Q.

(** One call of [save_email] and what the file system answers. *)
Module Call.
Record t : Type := Build {
  write : write_outcome;
  timestamp : string;
  email : string;
  user_data : User.t }.

(** The write went through. *)
Definition ok (c : t) : bool :=
  match write c with Written => true | _ => false end.
End Call.

Definition entry_of_call (c : Call.t) : json :=
  entry_of (Call.timestamp c) (Call.email c) (Call.user_data c).

Fixpoint save_all (dumps : json -> string) (calls : list Call.t) : M unit :=
  match calls with
  | [] => mret tt
  | c :: rest =>
      save_email dumps (Call.write c) (Call.timestamp c) (Call.email c) (Call.user_data c);;
      save_all dumps rest
  end.

Definition is_newline (c : ascii) : bool :=
  Ascii.eqb c Text.LF || Ascii.eqb c Text.CR.

Definition no_newline (c : ascii) : bool := negb (is_newline c).

(** What the history needs from the codec at the value [v]: the text of
    [v] has no line break in it, survives [strip] when it is read back as
    a line, and loads as [v]. Python's [json] gives this for every entry:
    the text starts and ends with a brace and control characters are
    escaped. *)
Definition codec_ok (dumps : json -> string) (loads : string -> option json)
    (v : json) : Prop :=
  Text.all_chars no_newline (dumps v) = true /\
  Text.strip (dumps v +:+ String Text.LF EmptyString) = dumps v /\
  dumps v <> EmptyString /\
  loads (dumps v) = Some v.

(** The text of a file made of the given lines. *)
Fixpoint lines_text (lines : list string) : string :=
  match lines with
  | [] => EmptyString
  | l :: rest => l +:+ String Text.LF (lines_text rest)
  end.

(** The entries a file holds when each of its lines is blank or loads:
    the values of the lines that are not blank, in the order of the
    lines. *)
Inductive lines_hold (loads : string -> option json) :
    list string -> list json -> Prop :=
  | hold_nil : lines_hold loads [] []
  | hold_blank line lines vs :
      Text.strip line = EmptyString ->
      lines_hold loads lines vs ->
      lines_hold loads (line :: lines) vs
  | hold_entry line lines v vs :
      Text.strip line <> EmptyString ->
      loads (Text.strip line) = Some v ->
      lines_hold loads lines vs ->
      lines_hold loads (line :: lines) (v :: vs).

(** The same run with another answer of the file system. *)
Definition with_write (outcome : write_outcome) (env : Env.t) : Env.t :=
  Env.Build (Env.time_at_throttle env) (Env.payout env) (Env.strftime_now env)
            outcome (Env.time_at_record env).

(** All or nothing: the write went through, or it failed before a
    character of the text had reached the file. *)
Definition all_or_nothing (outcome : write_outcome) : bool :=
  match outcome with
  | Written | NotOpened | Interrupted 0 => true
  | Interrupted (S _) => false
  end.

Definition count_events (p : event -> bool) (trace : list event) : nat :=
  List.length (List.filter p trace).

Definition is_file_write (ev : event) : bool :=
  match ev with FileWrite _ => true | _ => false end.

Definition is_save_attempt (ev : event) : bool :=
  match ev with
  | FileWrite _ | LogError (ErrorSavingEmail _) => true
  | _ => false
  end.

Definition is_http_post (ev : event) : bool :=
  match ev with HttpPost _ _ _ => true | _ => false end.

(** The messages the user is shown in place of the processing notice. *)
Fixpoint edits (trace : list event) : list message :=
  match trace with
  | [] => []
  | EditText m :: rest => m :: edits rest
  | _ :: rest => edits rest
  end.

Fixpoint replies (trace : list event) : list message :=
  match trace with
  | [] => []
  | ReplyText m :: rest => m :: replies rest
  | _ :: rest => replies rest
  end.

(** What [save_email] leaves in the file and in the trace of a run of the
    e-mail handler. *)
Definition written_line (dumps : json -> string) (user : User.t) (text : string)
    (env : Env.t) : string :=
  dumps (entry_of (Env.strftime_now env) (Text.lower (Text.strip text)) user)
  +:+ String Text.LF EmptyString.

Definition file_after_save (dumps : json -> string) (user : User.t) (text : string)
    (env : Env.t) (w : world) : option string :=
  match Env.write env with
  | Written =>
      Some (default EmptyString (email_file w) +:+ written_line dumps user text env)
  | NotOpened => email_file w
  | Interrupted n =>
      Some (default EmptyString (email_file w)
            +:+ Text.take n (written_line dumps user text env))
  end.

Definition save_trace (dumps : json -> string) (user : User.t) (text : string)
    (env : Env.t) : list event :=
  let email := Text.lower (Text.strip text) in
  if Env.write_ok env
  then [FileWrite (written_line dumps user text env);
        LogInfo (EmailSaved email (User.id user))]
  else [LogError (ErrorSavingEmail OSError);
        LogInfo (BackupEmailLog email (User.id user))].

Definition world_after_success (dumps : json -> string) (user : User.t)
    (text : string) (env : Env.t) (w : world) : world :=
  World (<[user_key user := Claim.Build (Env.time_at_record env)
                                        (Text.lower (Text.strip text))]>
           (user_claims w))
        (file_after_save dumps user text env w).

(** How the success branch ends: with the reward message, or in the
    catch-all handler when the transaction id cannot be shortened. *)
Definition success_ending (text : string) (d : list (string * json)) : list event :=
  match shorten (default (JStr "N/A") (dict_get d "payout_user_hash")) with
  | inr short_tx =>
      [EditText (RewardSent AMOUNT (Text.lower (Text.strip text)) short_tx)]
  | inl _ => [LogError (UnexpectedError TypeError); EditText ServiceUnavailable]
  end.

(** The message that replaces the processing notice, by outcome. With
    status 200 it is the reward message when the transaction id can be
    shortened, and the catch-all message when [shorten] raises. *)
Definition final_message (email : string) (outcome : http_outcome) : message :=
  match outcome with
  | TimedOut => RequestTimeout
  | Failed => ServiceUnavailable
  | Responded (JObj d) =>
      if py_eq_int (default JNull (dict_get d "status")) 200 then
        match shorten (default (JStr "N/A") (dict_get d "payout_user_hash")) with
        | inr short_tx => RewardSent AMOUNT email short_tx
        | inl _ => ServiceUnavailable
        end
      else TransactionFailed (default (JStr "Unknown error") (dict_get d "message"))
  | Responded _ => ServiceUnavailable
  end.

(** What /start does when it lets the user in. *)
Definition prompts (user : User.t) (w : world) : (exn + Z) * world * list event :=
  (inr WAITING_FOR_EMAIL, w,
   [ReplyText (Welcome (py_or (User.first_name user) "there"))]).

Definition not_line_feed (c : ascii) : bool := negb (Ascii.eqb c Text.LF).

(** ** The admin command and the web routes *)

(** A number as Python compares it: [True == 1] and [1 == 1.0]. *)
Definition py_number (v : json) : option Q :=
  match v with
  | JInt i => Some (inject_Z i)
  | JFloat x => Some x
  | JBool b => Some (if b then 1%Q else 0%Q)
  | _ => None
  end.

(** [a == b] on values that can be hashed. *)
Definition py_eq (a b : json) : bool :=
  match py_number a, py_number b with
  | Some x, Some y => Qeq_bool x y
  | None, None =>
      match a, b with
      | JNull, JNull => true
      | JStr s, JStr t => String.eqb s t
      | _, _ => false
      end
  | _, _ => false
  end.

(** Lists and dictionaries cannot be members of a set. *)
Definition hashable (v : json) : bool :=
  match v with
  | JArr _ | JObj _ => false
  | _ => true
  end.

(** [set(e.get('user_id') for e in emails)], built one entry at a time:
    [seen] holds one representative of each value met so far. *)
Fixpoint user_id_set (emails : list json) (seen : list json) : exn + list json :=
  match emails with
  | [] => inr seen
  | e :: rest =>
      match py_get e "user_id" JNull with
      | inl x => inl x
      | inr v =>
          if hashable v
          then user_id_set rest (if existsb (py_eq v) seen then seen else seen ++ [v])
          else inl TypeError
      end
  end.

Module Stats.
(** The body of the answer of [GET /stats]. *)
Record t : Type := Build {
  total_claims : nat;
  unique_users : nat;
  active_sessions : nat;
  last_updated : string }.
End Stats.

(** [web_stats]; [now_iso] is [datetime.now().isoformat()]. An exception
    that leaves the function is the route failing. *)
Definition web_stats (loads : string -> option json) (read_ok : bool)
    (now_iso : string) : M Stats.t :=
  emails ← get_all_emails loads read_ok;
  let total := List.length emails in
  ids ← lift (user_id_set emails []);
  let unique := List.length ids in
  w ← get;
  mret (Stats.Build total unique (size (user_claims w)) now_iso).

(** [ADMIN_IDS] of [stats_command]. *)
Definition ADMIN_IDS : list string := ["YOUR_TELEGRAM_USER_ID"].

(** What [stats_command] sends with [reply_text]; the recent claims are
    the pairs of [e.get('email')] and [e.get('timestamp')]. *)
Inductive stats_message : Type :=
  | AccessDenied
  | BotStatistics (total_claims unique_users active_users : nat)
                  (recent : list (json * json))
  | NoClaimsMade.

Fixpoint recent_lines (recent_claims : list json) : exn + list (json * json) :=
  match recent_claims with
  | [] => inr []
  | e :: rest =>
      match py_get e "email" JNull, py_get e "timestamp" JNull with
      | inr email, inr timestamp =>
          match recent_lines rest with
          | inr lines => inr ((email, timestamp) :: lines)
          | inl x => inl x
          end
      | inl x, _ => inl x
      | _, inl x => inl x
      end
  end.

(** [stats_command]; the value is the message it sends. *)
Definition stats_command (loads : string -> option json) (read_ok : bool)
    (user : User.t) : M stats_message :=
  if negb (existsb (String.eqb (Text.str_of_int (User.id user))) ADMIN_IDS) then
    mret AccessDenied
  else
    emails ← get_all_emails loads read_ok;
    let total_claims := List.length emails in
    if (0 <? total_claims)%nat then
      ids ← lift (user_id_set emails []);
      let unique_users := List.length ids in
      let recent_claims :=
        if (5 <=? List.length emails)%nat
        then skipn (List.length emails - 5) emails
        else emails in
      recent ← lift (recent_lines recent_claims);
      w ← get;
      mret (BotStatistics total_claims unique_users (size (user_claims w)) recent)
    else mret NoClaimsMade.

(** What a route returns: a JSON body or the CSV text, with the status. *)
Inductive http_response : Type :=
  | JsonResponse (body : json) (status : Z)
  | CsvResponse (body : string) (status : Z).

Definition CSV_HEADER : string :=
  "Timestamp,Email,User ID,Username,First Name,Last Name" +:+ String Text.LF EmptyString.

Section CsvExport.

(** [str(v)], as an f-string formats a value; Python's own. *)
Variable py_str : json -> string.

(** One row of the export. *)
Definition csv_row (entry : json) : exn + string :=
  match entry with
  | JObj d =>
      let field key := py_str (default JNull (dict_get d key)) in
      inr (field "timestamp" +:+ "," +:+ field "email" +:+ "," +:+ field "user_id"
           +:+ "," +:+ field "username" +:+ "," +:+ field "first_name" +:+ ","
           +:+ field "last_name" +:+ String Text.LF EmptyString)
  | _ => inl AttributeError
  end.

(** The loop [for entry in emails: csv_data += ...]. *)
Fixpoint csv_rows (emails : list json) (csv_data : string) : exn + string :=
  match emails with
  | [] => inr csv_data
  | entry :: rest =>
      match csv_row entry with
      | inr row => csv_rows rest (csv_data +:+ row)
      | inl x => inl x
      end
  end.

(** [download_emails]: [password] is [request.args.get('password')] and
    [admin_password] is the environment's [ADMIN_PASSWORD]. *)
Definition download_emails (loads : string -> option json) (read_ok : bool)
    (password admin_password : option string) : M http_response :=
  if negb (match password with
           | Some given => String.eqb given (default "admin123" admin_password)
           | None => false
           end)
  then mret (JsonResponse (JObj [("error", JStr "Unauthorized")]) 401)
  else
    emails ← get_all_emails loads read_ok;
    csv_data ← lift (csv_rows emails CSV_HEADER);
    mret (CsvResponse csv_data 200).

End CsvExport.

(** ** Updates, one after the other *)

(** A handler called on an update, with what it gets from outside. *)
Inductive update : Type :=
  | OnStart (user : User.t) (now : Q)
  | OnEmail (user : User.t) (text : string) (env : Env.t)
  | OnStatus (user : User.t) (now : Q).

Definition handle (dumps : json -> string) (u : update) : M unit :=
  match u with
  | OnStart user now => start_command user now;; mret tt
  | OnEmail user text env => handle_email dumps user text env;; mret tt
  | OnStatus user now => status_command user now
  end.

Fixpoint run (dumps : json -> string) (updates : list update) : M unit :=
  match updates with
  | [] => mret tt
  | u :: rest => handle dumps u;; run dumps rest
  end.

(** The requests of a trace, each with its currency, destination and
    amount. *)
Fixpoint posts (trace : list event) : list (string * string * string) :=
  match trace with
  | [] => []
  | HttpPost currency to amount :: rest => (currency, to, amount) :: posts rest
  | _ :: rest => posts rest
  end.

(** ** Sample data *)

Definition alice : User.t := User.Build 42 (Some "alice") "Alice" None.
Definition empty_world : world := World ∅ None.

(** Alice claimed at time 1000. *)
Definition claimed_world : world :=
  World {[ "42" := Claim.Build 1000 "a@b.co" ]} None.

Definition bob : User.t := User.Build 7 None "Bob" (Some "Builder").

(** Three appends, the second of which is refused when the file is
    opened. *)
Definition three_calls : list Call.t :=
  [ Call.Build Written "2024-01-01 00:00:00" "a@b.co" alice;
    Call.Build NotOpened "2024-01-01 00:00:01" "b@b.co" bob;
    Call.Build Written "2024-01-01 00:00:02" "b@b.co" bob ].

(** The same with the second append cut off after ten characters. *)
Definition cut_calls : list Call.t :=
  [ Call.Build Written "2024-01-01 00:00:00" "a@b.co" alice;
    Call.Build (Interrupted 10) "2024-01-01 00:00:01" "b@b.co" bob;
    Call.Build Written "2024-01-01 00:00:02" "b@b.co" bob ].

(** A history whose second line is not JSON, and one with a blank line. *)
Definition alice_line : string :=
  MiniJson.dumps (entry_of "2024-01-01 00:00:00" "a@b.co" alice).

Definition damaged_text : string := lines_text [alice_line; "oops"].
Definition blank_line_text : string := lines_text [alice_line; "  "].
Definition one_line_text : string := lines_text [alice_line].

Definition damaged_world : world := World ∅ (Some damaged_text).
Definition blank_line_world : world := World ∅ (Some blank_line_text).
Definition one_line_world : world := World ∅ (Some one_line_text).

(** A run of the e-mail handler at time [t] in which the file system
    works and FaucetPay answers [outcome]. *)
Definition env_at (t : Q) (outcome : http_outcome) : Env.t :=
  Env.Build t outcome "2024-01-01 00:00:00" Written (t + 1).

(** The same when the disk fills up ten characters into the line. *)
Definition env_disk_full (t : Q) (outcome : http_outcome) : Env.t :=
  Env.Build t outcome "2024-01-01 00:00:00" (Interrupted 10) (t + 1).

(** The same when the file cannot be opened. *)
Definition env_read_only (t : Q) (outcome : http_outcome) : Env.t :=
  Env.Build t outcome "2024-01-01 00:00:00" NotOpened (t + 1).

Definition sent : json :=
  JObj [ ("status", JInt 200); ("message", JStr "OK");
         ("payout_user_hash", JStr "abc123def456ghi789") ].

Definition sent_without_hash : json :=
  JObj [ ("status", JInt 200); ("message", JStr "OK") ].

Definition sent_null_hash : json :=
  JObj [ ("status", JInt 200); ("message", JStr "OK");
         ("payout_user_hash", JNull) ].

Definition declined : json :=
  JObj [ ("status", JInt 456);
         ("message", JStr "The send destination does not belong to any user.") ].

(** [str(v)] on the values an entry holds: text, integers and [None]. *)
Definition str_of_value (v : json) : string :=
  match v with
  | JStr s => s
  | JInt i => Text.str_of_int i
  | JNull => "None"
  | JBool b => if b then "True" else "False"
  | _ => MiniJson.dumps v
  end.

(** A history with a line that is JSON but not an object. *)
Definition number_line_world : world := World ∅ (Some (lines_text [alice_line; "5"])).

(** Alice is paid, asks too early, Bob is declined and then paid while the
    file cannot be opened. *)
Definition sample_updates : list update :=
  [ OnStart alice 4990;
    OnEmail alice "  A@B.co" (Env.Build 5000 (Responded sent) "2024-01-01 00:00:00" Written 5001);
    OnStatus alice 5002;
    OnEmail alice "a@b.co" (Env.Build 5010 (Responded sent) "2024-01-01 00:00:10" Written 5011);
    OnEmail bob "bob@b.co" (Env.Build 5020 (Responded declined) "2024-01-01 00:00:20" Written 5021);
    OnEmail bob "bob@b.co" (Env.Build 5030 (Responded sent) "2024-01-01 00:00:30" NotOpened 5031) ].

(** * Theorems *)

(** ** Arithmetic of the clock *)

Lemma py_lt_true (x y : Q) : py_lt x y = true <-> (x < y)%Q.
Proof.
  unfold py_lt. rewrite negb_true_iff, <- not_true_iff_false, Qle_bool_iff.
  split; [apply Qnot_le_lt | apply Qlt_not_le].
Qed.

Lemma py_lt_false (x y : Q) : py_lt x y = false <-> (y <= x)%Q.
Proof. unfold py_lt. rewrite negb_false_iff. apply Qle_bool_iff. Qed.

Lemma py_int_inject (z : Z) : py_int (inject_Z z) = z.
Proof.
  unfold py_int. destruct (py_lt (inject_Z z) 0).
  - apply Qceiling_Z.
  - apply Qfloor_Z.
Qed.

Lemma floor_bounds (x c : Q) :
  (0 < c)%Q ->
  (c * inject_Z (Qfloor (x / c)) <= x)%Q /\
  (x < c * (inject_Z (Qfloor (x / c)) + 1))%Q.
Proof.
  intros Hc.
  pose proof (Qfloor_le (x / c)) as Hlo.
  pose proof (Qlt_floor (x / c)) as Hhi.
  rewrite inject_Z_plus in Hhi.
  apply (Qmult_le_l _ _ c Hc) in Hlo.
  apply (Qmult_lt_l _ _ c Hc) in Hhi.
  rewrite Qmult_div_r in Hlo, Hhi by lra.
  split; assumption.
Qed.

(** The hours and minutes shown for a remaining time are its whole hours
    and the whole minutes of the rest. *)
Lemma hours_minutes_spec (time_left : Q) :
  (0 <= time_left)%Q ->
  let h := hours_of time_left in
  let m := minutes_of time_left in
  (0 <= h)%Z /\ (0 <= m < 60)%Z /\
  (inject_Z (3600 * h + 60 * m) <= time_left)%Q /\
  (time_left < inject_Z (3600 * h + 60 * m + 60))%Q.
Proof.
  intros Hpos. unfold hours_of, minutes_of, py_mod, floordiv.
  rewrite !py_int_inject.
  set (a := Qfloor (time_left / 3600)).
  set (b := Qfloor ((time_left - 3600 * inject_Z a) / 60)).
  destruct (floor_bounds time_left 3600 ltac:(lra)) as [Ha1 Ha2].
  destruct (floor_bounds (time_left - 3600 * inject_Z a) 60 ltac:(lra)) as [Hb1 Hb2].
  fold a in Ha1, Ha2. fold b in Hb1, Hb2.
  assert (Ha : (0 <= a)%Z).
  { apply Z.lt_succ_r. unfold Z.succ. rewrite Zlt_Qlt, inject_Z_plus.
    change (inject_Z 0) with 0%Q. change (inject_Z 1) with 1%Q. lra. }
  assert (Hb : (0 <= b < 60)%Z).
  { split.
    - apply Z.lt_succ_r. unfold Z.succ. rewrite Zlt_Qlt, inject_Z_plus.
      change (inject_Z 0) with 0%Q. change (inject_Z 1) with 1%Q. lra.
    - rewrite Zlt_Qlt. change (inject_Z 60) with 60%Q. lra. }
  repeat split; try tauto.
  - rewrite inject_Z_plus, !inject_Z_mult.
    change (inject_Z 3600) with 3600%Q. change (inject_Z 60) with 60%Q. lra.
  - rewrite !inject_Z_plus, !inject_Z_mult.
    change (inject_Z 3600) with 3600%Q. change (inject_Z 60) with 60%Q. lra.
Qed.

(** ** Running the monad *)

Ltac run :=
  cbv beta iota zeta delta
    [mbind M_bind mret M_ret bind ret get put emit raise lift try_except
     os_call welcome returned world_of trace_of fst snd negb];
  cbn [app].

(** ** The cooldown at /start *)

Lemma start_command_without_record (user : User.t) (now : Q) (w : world) :
  user_claims w !! user_key user = None ->
  start_command user now w = prompts user w.
Proof. intros Hnone. unfold start_command, prompts. run. now rewrite Hnone. Qed.

Lemma start_command_with_record (user : User.t) (now : Q) (w : world)
    (record : Claim.t) :
  user_claims w !! user_key user = Some record ->
  let remaining := (86400 - (now - Claim.last_claim record))%Q in
  start_command user now w =
    if py_lt 0 remaining
    then (inr END, w,
          [ReplyText (CooldownActive (hours_of remaining) (minutes_of remaining))])
    else prompts user w.
Proof.
  intros Hsome remaining. unfold start_command, prompts, py_gt. run.
  rewrite Hsome. fold remaining. destruct (py_lt 0 remaining); reflexivity.
Qed.

Lemma start_command_waiting (user : User.t) (now : Q) (w : world)
    (record : Claim.t) :
  user_claims w !! user_key user = Some record ->
  (now - Claim.last_claim record < 86400)%Q ->
  let remaining := (86400 - (now - Claim.last_claim record))%Q in
  start_command user now w =
    (inr END, w,
     [ReplyText (CooldownActive (hours_of remaining) (minutes_of remaining))]).
Proof.
  intros Hsome Hlt remaining.
  rewrite (start_command_with_record user now w record Hsome). fold remaining.
  assert (H : py_lt 0 remaining = true)
    by (apply py_lt_true; unfold remaining; lra).
  now rewrite H.
Qed.

Lemma start_command_ready (user : User.t) (now : Q) (w : world)
    (record : Claim.t) :
  user_claims w !! user_key user = Some record ->
  (86400 <= now - Claim.last_claim record)%Q ->
  start_command user now w = prompts user w.
Proof.
  intros Hsome Hle.
  rewrite (start_command_with_record user now w record Hsome). cbv zeta.
  assert (H : py_lt 0 (86400 - (now - Claim.last_claim record)) = false)
    by (apply py_lt_false; lra).
  now rewrite H.
Qed.

(** C2. Without a record the user is eligible with nothing remaining and
    /start prompts for the e-mail; with a record the user is eligible
    exactly when 86400 seconds have passed since the last claim, and
    otherwise /start shows the hours and minutes of
    [86400 - (now - last_claim)] and ends the conversation without a
    prompt. *)
Theorem start_command_eligibility (user : User.t) (now : Q) (w : world) :
  (user_claims w !! user_key user = None ->
     checkEligibility (user_claims w) (user_key user) now = (true, 0%Q) /\
     start_command user now w = prompts user w)
  /\
  (forall record, user_claims w !! user_key user = Some record ->
     let elapsed := (now - Claim.last_claim record)%Q in
     let remaining := (86400 - elapsed)%Q in
     ((checkEligibility (user_claims w) (user_key user) now).1 = true
        <-> (86400 <= elapsed)%Q) /\
     (start_command user now w = prompts user w <-> (86400 <= elapsed)%Q) /\
     ((elapsed < 86400)%Q ->
        checkEligibility (user_claims w) (user_key user) now = (false, remaining) /\
        start_command user now w =
          (inr END, w,
           [ReplyText (CooldownActive (hours_of remaining) (minutes_of remaining))]) /\
        (0 <= minutes_of remaining < 60)%Z /\
        (inject_Z (3600 * hours_of remaining + 60 * minutes_of remaining)
           <= remaining)%Q /\
        (remaining
           < inject_Z (3600 * hours_of remaining + 60 * minutes_of remaining + 60))%Q)).
Proof.
  split.
  - intros Hnone. split; [| now apply start_command_without_record].
    unfold checkEligibility. now rewrite Hnone.
  - intros record Hsome elapsed remaining.
    pose proof (start_command_with_record user now w record Hsome) as Hrun.
    cbv zeta in Hrun. fold elapsed remaining in Hrun.
    assert (Hcheck : checkEligibility (user_claims w) (user_key user) now =
              (Qle_bool 86400 elapsed,
               if py_lt 0 remaining then remaining else 0%Q)).
    { unfold checkEligibility. rewrite Hsome. reflexivity. }
    split; [| split].
    + rewrite Hcheck. cbn. apply Qle_bool_iff.
    + split.
      * rewrite Hrun. destruct (py_lt 0 remaining) eqn:Hlt; [discriminate |].
        intros _. apply py_lt_false in Hlt. unfold remaining in Hlt. lra.
      * now apply (start_command_ready user now w record).
    + intros Hlt.
      assert (Hpos : py_lt 0 remaining = true)
        by (apply py_lt_true; unfold remaining; lra).
      split; [| split].
      * rewrite Hcheck, Hpos. f_equal.
        apply not_true_is_false. rewrite Qle_bool_iff. lra.
      * now apply start_command_waiting.
      * apply hours_minutes_spec. unfold remaining. lra.
Qed.

Lemma start_command_eligibility_witness :
  start_command alice 2000 empty_world = prompts alice empty_world /\
  start_command alice 2000 claimed_world =
    (inr END, claimed_world, [ReplyText (CooldownActive 23 43)]) /\
  (start_command alice 87400 claimed_world = prompts alice claimed_world
     <-> (86400 <= 87400 - 1000)%Q).
Proof.
  split; [| split].
  - apply (proj1 (start_command_eligibility alice 2000 empty_world)).
    reflexivity.
  - apply (proj2 (start_command_eligibility alice 2000 claimed_world)
             (Claim.Build 1000 "a@b.co") eq_refl).
    reflexivity.
  - apply (proj2 (start_command_eligibility alice 87400 claimed_world)
             (Claim.Build 1000 "a@b.co") eq_refl).
Defined.

(** ** /status *)

(** C10. /status changes neither the dictionary nor the file, and it picks
    its answer as /start does: in the same worlds and at the same time it
    says to wait exactly when /start refuses, with the same hours and
    minutes, and it says ready exactly when /start prompts. *)
Theorem status_command_read_only (user : User.t) (now : Q) (w : world) :
  world_of (status_command user now w) = w /\
  returned (status_command user now w) = inr tt /\
  (user_claims w !! user_key user = None ->
     trace_of (status_command user now w) = [ReplyText NoClaimsYet]) /\
  (forall record, user_claims w !! user_key user = Some record ->
     let time_left := (86400 - (now - Claim.last_claim record))%Q in
     ((now - Claim.last_claim record < 86400)%Q ->
        trace_of (status_command user now w) =
          [ReplyText (StatusCooldown (Claim.email record)
                        (hours_of time_left) (minutes_of time_left))] /\
        start_command user now w =
          (inr END, w,
           [ReplyText (CooldownActive (hours_of time_left) (minutes_of time_left))])) /\
     ((86400 <= now - Claim.last_claim record)%Q ->
        trace_of (status_command user now w) = [ReplyText ReadyToClaim] /\
        start_command user now w = prompts user w)).
Proof.
  unfold status_command. run.
  destruct (user_claims w !! user_key user) as [record|] eqn:Hlookup.
  - destruct (py_lt (now - Claim.last_claim record) 86400) eqn:Hlt;
      (split; [reflexivity | split; [reflexivity | split; [discriminate |]]]);
      intros record' [= <-].
    + apply py_lt_true in Hlt. split.
      * intros _. split; [reflexivity | now apply start_command_waiting].
      * intros Hle. lra.
    + apply py_lt_false in Hlt. split.
      * intros Hlt'. lra.
      * intros _. split; [reflexivity |].
        now apply (start_command_ready user now w record).
  - split; [reflexivity | split; [reflexivity | split; [reflexivity |]]].
    intros ? [=].
Qed.

Lemma status_command_read_only_witness :
  trace_of (status_command alice 2000 claimed_world) =
    [ReplyText (StatusCooldown "a@b.co" 23 43)] /\
  start_command alice 2000 claimed_world =
    (inr END, claimed_world, [ReplyText (CooldownActive 23 43)]).
Proof.
  apply (proj2 (proj2 (proj2 (status_command_read_only alice 2000 claimed_world)))
           (Claim.Build 1000 "a@b.co") eq_refl).
  reflexivity.
Defined.

(** ** The e-mail handler, case by case *)

Section HandleEmail.

Variable dumps : json -> string.
Variables (user : User.t) (text : string) (env : Env.t) (w : world).

Local Abbreviation email := (Text.lower (Text.strip text)).
Local Abbreviation user_id := (user_key user).

Lemma shorten_raises (tx_id : json) (e : exn) :
  shorten tx_id = inl e -> e = TypeError.
Proof.
  destruct tx_id; cbn; try congruence;
    match goal with |- context [if ?b then _ else _] => destruct b end;
    congruence.
Qed.

Lemma handle_email_invalid :
  is_valid_email email = false ->
  handle_email dumps user text env w =
    (inr WAITING_FOR_EMAIL, w, [ReplyText InvalidEmailFormat]).
Proof.
  intros Hbad. unfold handle_email. cbv zeta. rewrite Hbad. reflexivity.
Qed.

Lemma handle_email_throttled (record : Claim.t) :
  is_valid_email email = true ->
  user_claims w !! user_id = Some record ->
  (Env.time_at_throttle env - Claim.last_claim record < 60)%Q ->
  handle_email dumps user text env w = (inr END, w, [ReplyText PleaseWait]).
Proof.
  intros Hok Hrec Hsoon. unfold handle_email. cbv zeta.
  rewrite Hok. run. rewrite Hrec.
  apply py_lt_true in Hsoon. rewrite Hsoon. reflexivity.
Qed.

Lemma throttle_open :
  reaches_payout user text env w ->
  match user_claims w !! user_id with
  | Some record => py_lt (Env.time_at_throttle env - Claim.last_claim record) 60
  | None => false
  end = false.
Proof.
  intros [_ Hopen].
  destruct (user_claims w !! user_id) as [record|]; [| reflexivity].
  apply py_lt_false. apply Hopen. reflexivity.
Qed.

Ltac enter H :=
  unfold handle_email; cbv zeta;
  rewrite (proj1 H); run; rewrite (throttle_open H); run.

Lemma handle_email_timed_out :
  reaches_payout user text env w ->
  Env.payout env = TimedOut ->
  handle_email dumps user text env w =
    (inr END, w,
     [ReplyText Processing; HttpPost CURRENCY email AMOUNT; EditText RequestTimeout]).
Proof.
  intros H Hout. enter H. unfold post. rewrite Hout. reflexivity.
Qed.

Lemma handle_email_failed :
  reaches_payout user text env w ->
  Env.payout env = Failed ->
  handle_email dumps user text env w =
    (inr END, w,
     [ReplyText Processing; HttpPost CURRENCY email AMOUNT;
      LogError (UnexpectedError ClientError); EditText ServiceUnavailable]).
Proof.
  intros H Hout. enter H. unfold post. rewrite Hout. reflexivity.
Qed.

Lemma handle_email_not_a_dict (result : json) :
  reaches_payout user text env w ->
  Env.payout env = Responded result ->
  (forall d, result <> JObj d) ->
  handle_email dumps user text env w =
    (inr END, w,
     [ReplyText Processing; HttpPost CURRENCY email AMOUNT;
      LogInfo (ApiResponse result);
      LogError (UnexpectedError AttributeError); EditText ServiceUnavailable]).
Proof.
  intros H Hout Hnot. enter H. unfold post. rewrite Hout.
  destruct result; try reflexivity. now destruct (Hnot d).
Qed.

Lemma handle_email_rejected (d : list (string * json)) :
  reaches_payout user text env w ->
  Env.payout env = Responded (JObj d) ->
  py_eq_int (default JNull (dict_get d "status")) 200 = false ->
  handle_email dumps user text env w =
    (inr END, w,
     [ReplyText Processing; HttpPost CURRENCY email AMOUNT;
      LogInfo (ApiResponse (JObj d));
      EditText (TransactionFailed
                  (default (JStr "Unknown error") (dict_get d "message")))]).
Proof.
  intros H Hout Hstatus. enter H. unfold post. rewrite Hout. run.
  unfold py_get. run. rewrite Hstatus. reflexivity.
Qed.

Lemma handle_email_success (d : list (string * json)) :
  reaches_payout user text env w ->
  Env.payout env = Responded (JObj d) ->
  py_eq_int (default JNull (dict_get d "status")) 200 = true ->
  handle_email dumps user text env w =
    (inr END, world_after_success dumps user text env w,
     [ReplyText Processing; HttpPost CURRENCY email AMOUNT;
      LogInfo (ApiResponse (JObj d))]
     ++ save_trace dumps user text env ++ success_ending text d).
Proof.
  intros H Hout Hstatus. enter H. unfold post. rewrite Hout. run.
  unfold py_get. run. rewrite Hstatus.
  unfold save_email, save_to_alternative, append_file, world_after_success,
    file_after_save, save_trace, success_ending, written_line.
  unfold Env.write_ok. destruct (Env.write env); run; cbn;
    destruct (shorten (default (JStr "N/A") (dict_get d "payout_user_hash")))
      as [e|short_tx] eqn:Hshort;
    try apply shorten_raises in Hshort; subst; reflexivity.
Qed.

End HandleEmail.

(** ** Claims are recorded on success only *)

Lemma payout_success_inv (outcome : http_outcome) :
  payout_success outcome = true ->
  exists d, outcome = Responded (JObj d) /\
            py_eq_int (default JNull (dict_get d "status")) 200 = true.
Proof.
  destruct outcome as [result| |]; try discriminate.
  destruct result; try discriminate. intros H. eauto.
Qed.

(** An attempt is turned away for its address, turned away by the 60
    second check, or gets to the payout call. *)
Lemma attempt_cases (user : User.t) (text : string) (env : Env.t) (w : world) :
  is_valid_email (Text.lower (Text.strip text)) = false \/
  (is_valid_email (Text.lower (Text.strip text)) = true /\
   exists record, user_claims w !! user_key user = Some record /\
     (Env.time_at_throttle env - Claim.last_claim record < 60)%Q) \/
  reaches_payout user text env w.
Proof.
  destruct (is_valid_email (Text.lower (Text.strip text))) eqn:Hvalid;
    [right | now left].
  destruct (user_claims w !! user_key user) as [record|] eqn:Hrec.
  - destruct (Qlt_le_dec (Env.time_at_throttle env - Claim.last_claim record) 60)
      as [Hsoon|Hlate].
    + left. eauto.
    + right. split; [exact Hvalid |]. intros r Hr. congruence.
  - right. split; [exact Hvalid |]. intros r Hr. congruence.
Qed.

Lemma not_success_cases (outcome : http_outcome) :
  payout_success outcome = false ->
  outcome = TimedOut \/ outcome = Failed \/
  (exists result, outcome = Responded result /\ forall d, result <> JObj d) \/
  (exists d, outcome = Responded (JObj d) /\
             py_eq_int (default JNull (dict_get d "status")) 200 = false).
Proof.
  destruct outcome as [result| |]; [| now left | now (right; left)].
  intros H. right. right.
  destruct result; try (left; eexists; split; [reflexivity | congruence]).
  right. eauto.
Qed.

(** A run that does not pay out leaves the world alone, writes nothing
    and still ends the turn. *)
Lemma handle_email_frame dumps user text env w :
  ~ (reaches_payout user text env w /\ payout_success (Env.payout env) = true) ->
  world_of (handle_email dumps user text env w) = w /\
  count_events is_save_attempt (trace_of (handle_email dumps user text env w)) = 0%nat.
Proof.
  intros Hnot.
  destruct (attempt_cases user text env w) as [Hbad | [[Hok (r & Hr & Hsoon)] | H]].
  - now rewrite handle_email_invalid.
  - now rewrite (handle_email_throttled dumps user text env w r).
  - destruct (payout_success (Env.payout env)) eqn:Hs; [now destruct Hnot |].
    destruct (not_success_cases _ Hs)
      as [Hout | [Hout | [(result & Hout & Hnd) | (d & Hout & Hst)]]].
    + now rewrite handle_email_timed_out.
    + now rewrite handle_email_failed.
    + now rewrite (handle_email_not_a_dict dumps user text env w result).
    + now rewrite (handle_email_rejected dumps user text env w d).
Qed.

(** C1. The record of the user is written exactly when the attempt gets
    to the payout call and the response has status 200. Then the
    dictionary is the old one with the one record stored under the user's
    key, its timestamp later than the one it replaces, and [save_email]
    has run once: one line is at the end of the file, or, when the write
    failed, one error is in the log. In every other run (rejected, timed
    out, failed, or turned away earlier) the dictionary and the file are
    as before and nothing was written, so the cooldown answers as
    before. *)
Theorem claim_record_iff_success dumps (user : User.t) (text : string)
    (env : Env.t) (w : world) :
  let email := Text.lower (Text.strip text) in
  let r := handle_email dumps user text env w in
  (reaches_payout user text env w /\ payout_success (Env.payout env) = true ->
     returned r = inr END /\
     user_claims (world_of r) =
       <[user_key user := Claim.Build (Env.time_at_record env) email]> (user_claims w) /\
     email_file (world_of r) = file_after_save dumps user text env w /\
     count_events is_save_attempt (trace_of r) = 1%nat /\
     count_events is_file_write (trace_of r) = (if Env.write_ok env then 1 else 0)%nat /\
     (forall record, user_claims w !! user_key user = Some record ->
        (Env.time_at_throttle env <= Env.time_at_record env)%Q ->
        (Claim.last_claim record < Env.time_at_record env)%Q))
  /\
  (~ (reaches_payout user text env w /\ payout_success (Env.payout env) = true) ->
     world_of r = w /\
     count_events is_save_attempt (trace_of r) = 0%nat /\
     forall now, start_command user now (world_of r) = start_command user now w).
Proof.
  intros email r. split.
  - intros [H Hs]. destruct (payout_success_inv _ Hs) as (d & Hout & Hst).
    unfold r. rewrite (handle_email_success dumps user text env w d H Hout Hst).
    repeat split.
    + unfold count_events, save_trace, success_ending. cbn.
      unfold Env.write_ok; destruct (Env.write env);
        destruct (shorten (default (JStr "N/A") (dict_get d "payout_user_hash")));
        reflexivity.
    + unfold count_events, save_trace, success_ending. cbn.
      unfold Env.write_ok; destruct (Env.write env);
        destruct (shorten (default (JStr "N/A") (dict_get d "payout_user_hash")));
        reflexivity.
    + intros record Hrec Hclock. pose proof (proj2 H record Hrec). lra.
  - intros Hnot. destruct (handle_email_frame dumps user text env w Hnot) as [Hw Hc].
    unfold r. rewrite Hw. auto.
Qed.

Lemma claim_record_iff_success_witness :
  let r := handle_email MiniJson.dumps alice "  A@B.co " (env_at 90000 (Responded sent))
             claimed_world in
  user_claims (world_of r) = {[ "42" := Claim.Build 90001 "a@b.co" ]} /\
  count_events is_file_write (trace_of r) = 1%nat /\
  world_of (handle_email MiniJson.dumps alice "a@b.co"
              (env_at 90000 (Responded declined)) claimed_world) = claimed_world.
Proof.
  pose proof (claim_record_iff_success MiniJson.dumps alice "  A@B.co "
                (env_at 90000 (Responded sent)) claimed_world) as [Hyes _].
  pose proof (claim_record_iff_success MiniJson.dumps alice "a@b.co"
                (env_at 90000 (Responded declined)) claimed_world) as [_ Hno].
  cbv zeta in Hyes, Hno.
  assert (Hreach : reaches_payout alice "  A@B.co "
                     (env_at 90000 (Responded sent)) claimed_world).
  { split; [reflexivity |]. intros record Hrec. vm_compute in Hrec.
    injection Hrec as <-. vm_compute. discriminate. }
  destruct (Hyes (conj Hreach eq_refl)) as (_ & Hmap & _ & _ & Hwrites & _).
  destruct Hno as (Hworld & _ & _).
  { intros [_ Hs]. discriminate Hs. }
  cbv zeta. split; [| split].
  - rewrite Hmap. apply insert_singleton_eq.
  - exact Hwrites.
  - exact Hworld.
Defined.

(** ** How the payout call is answered *)

(** Every attempt that gets to the payout call makes one request, ends
    the conversation and shows one message, the one of its outcome. *)
Lemma payout_outcome_classified dumps (user : User.t) (text : string)
    (env : Env.t) (w : world) :
  reaches_payout user text env w ->
  let r := handle_email dumps user text env w in
  returned r = inr END /\
  count_events is_http_post (trace_of r) = 1%nat /\
  replies (trace_of r) = [Processing] /\
  edits (trace_of r) = [final_message (Text.lower (Text.strip text)) (Env.payout env)].
Proof.
  intros H r. unfold r.
  destruct (Env.payout env) as [result| |] eqn:Hout.
  - destruct result;
      try (rewrite (handle_email_not_a_dict dumps user text env w _ H Hout);
           [repeat split | congruence]).
    destruct (py_eq_int (default JNull (dict_get d "status")) 200) eqn:Hst.
    + rewrite (handle_email_success dumps user text env w d H Hout Hst).
      unfold final_message, save_trace, success_ending, count_events.
      rewrite Hst.
      unfold Env.write_ok; destruct (Env.write env);
        destruct (shorten (default (JStr "N/A") (dict_get d "payout_user_hash")));
        repeat split.
    + rewrite (handle_email_rejected dumps user text env w d H Hout Hst).
      unfold final_message. rewrite Hst. repeat split.
  - rewrite (handle_email_timed_out dumps user text env w H Hout). repeat split.
  - rewrite (handle_email_failed dumps user text env w H Hout). repeat split.
Qed.

(** C4 at a response with status 200 whose [payout_user_hash] is [null]:
    the claim is stored and the history line written as for a success,
    [len(None)] raises, and the user is shown the service-unavailable
    message instead of the reward message. *)
Theorem status_200_null_hash_unavailable :
  let r := handle_email MiniJson.dumps alice "a@b.co"
             (env_at 5000 (Responded sent_null_hash)) empty_world in
  payout_success (Responded sent_null_hash) = true /\
  returned r = inr END /\
  edits (trace_of r) = [ServiceUnavailable] /\
  user_claims (world_of r) !! "42" = Some (Claim.Build 5001 "a@b.co") /\
  count_events is_file_write (trace_of r) = 1%nat.
Proof. vm_compute. repeat split. Qed.

(** ** The transaction id on display *)

Lemma take_split (n : nat) (s : string) :
  (n <= String.length s)%nat ->
  exists rest, s = Text.take n s +:+ rest /\ String.length (Text.take n s) = n.
Proof.
  revert s. induction n as [|n IH]; intros s Hlen.
  - exists s. split; reflexivity.
  - destruct s as [|c s]; cbn in Hlen; [lia |].
    destruct (IH s ltac:(lia)) as (rest & Hs & Hl).
    exists rest. split.
    + change (String c s = String c (Text.take n s +:+ rest)). now rewrite <- Hs.
    + change (S (String.length (Text.take n s)) = S n). now rewrite Hl.
Qed.

(** For a response with status 200 whose [payout_user_hash] is a string,
    the reward message shows the hash itself when it has at most 12
    characters and its first 12 characters followed by three dots when it
    has more; it shows [N/A] when the response has no such field. *)
Theorem transaction_id_display dumps (user : User.t) (text : string)
    (env : Env.t) (w : world) (d : list (string * json)) :
  reaches_payout user text env w ->
  Env.payout env = Responded (JObj d) ->
  py_eq_int (default JNull (dict_get d "status")) 200 = true ->
  let shown tx := edits (trace_of (handle_email dumps user text env w)) =
                    [RewardSent AMOUNT (Text.lower (Text.strip text)) (JStr tx)] in
  (forall h, dict_get d "payout_user_hash" = Some (JStr h) ->
     (String.length h <= 12)%nat -> shown h) /\
  (forall h, dict_get d "payout_user_hash" = Some (JStr h) ->
     (12 < String.length h)%nat ->
     exists first rest, h = first +:+ rest /\ String.length first = 12%nat /\
                        shown (first +:+ "...")) /\
  (dict_get d "payout_user_hash" = None -> shown "N/A").
Proof.
  intros H Hout Hst shown.
  destruct (payout_outcome_classified dumps user text env w H) as (_ & _ & _ & Hedits).
  unfold shown. rewrite Hedits, Hout. unfold final_message. rewrite Hst.
  split; [| split].
  - intros h Hh Hlen. rewrite Hh. unfold default, id, shorten.
    apply Nat.ltb_ge in Hlen. rewrite Hlen. reflexivity.
  - intros h Hh Hlen. rewrite Hh. unfold default, id, shorten.
    destruct (take_split 12 h ltac:(lia)) as (rest & Hsplit & Hfirst).
    exists (Text.take 12 h), rest. split; [exact Hsplit | split; [exact Hfirst |]].
    apply Nat.ltb_lt in Hlen. rewrite Hlen. reflexivity.
  - intros Hnone. rewrite Hnone. reflexivity.
Qed.

Lemma transaction_id_display_witness :
  edits (trace_of (handle_email MiniJson.dumps alice "a@b.co"
                     (env_at 5000 (Responded sent)) empty_world)) =
    [RewardSent AMOUNT "a@b.co" (JStr "abc123def456...")] /\
  edits (trace_of (handle_email MiniJson.dumps alice "a@b.co"
                     (env_at 5000 (Responded sent_without_hash)) empty_world)) =
    [RewardSent AMOUNT "a@b.co" (JStr "N/A")].
Proof.
  assert (Hreach : forall outcome,
             reaches_payout alice "a@b.co" (env_at 5000 outcome) empty_world).
  { intros outcome. split; [reflexivity |]. intros record Hrec.
    vm_compute in Hrec. discriminate Hrec. }
  split.
  - destruct (proj1 (proj2 (transaction_id_display MiniJson.dumps alice "a@b.co"
                              (env_at 5000 (Responded sent)) empty_world _
                              (Hreach _) eq_refl eq_refl))
                    "abc123def456ghi789" eq_refl ltac:(cbn; lia))
      as (first & rest & Hsplit & Hlen & Hshown).
    rewrite Hshown. do 3 f_equal.
    assert (Hfirst : first = "abc123def456"); [| now rewrite Hfirst].
    clear Hshown.
    do 12 (destruct first as [|? first]; [discriminate Hlen |];
           injection Hsplit as <- Hsplit).
    destruct first; [reflexivity | discriminate Hlen].
  - apply (transaction_id_display MiniJson.dumps alice "a@b.co"
             (env_at 5000 (Responded sent_without_hash)) empty_world _
             (Hreach _) eq_refl eq_refl).
    reflexivity.
Defined.

(** C9 at responses with status 200 whose [payout_user_hash] is [null] or
    a number. The claim is stored as for every success, but [len] raises
    on the hash, so no transaction id is shown, neither the hash nor
    [N/A]: the user is shown the service-unavailable message. A hash that
    is a string is shown. *)
Theorem hash_without_length_not_shown :
  let response hash := JObj [ ("status", JInt 200); ("payout_user_hash", hash) ] in
  let r hash := handle_email MiniJson.dumps alice "a@b.co"
                  (env_at 5000 (Responded (response hash))) empty_world in
  payout_success (Responded (response JNull)) = true /\
  edits (trace_of (r JNull)) = [ServiceUnavailable] /\
  edits (trace_of (r (JInt 123456789))) = [ServiceUnavailable] /\
  user_claims (world_of (r JNull)) !! "42" = Some (Claim.Build 5001 "a@b.co") /\
  edits (trace_of (r (JStr "abc123"))) = [RewardSent AMOUNT "a@b.co" (JStr "abc123")].
Proof. vm_compute. repeat split. Qed.

(** ** A failed append stays inside [save_email] *)

Lemma save_email_returns dumps (outcome : write_outcome) (timestamp email : string)
    (user_data : User.t) (w : world) :
  returned (save_email dumps outcome timestamp email user_data w) = inr true.
Proof.
  unfold save_email, save_to_alternative, append_file.
  destruct outcome; run; reflexivity.
Qed.

Lemma reaches_payout_with_write (outcome : write_outcome) user text env w :
  reaches_payout user text env w ->
  reaches_payout user text (with_write outcome env) w.
Proof. intros H. exact H. Qed.

(** C7. When the response has status 200 and the append to the history
    file fails, whether the file could not be opened or the write was cut
    off, [save_email] logs the error, logs the backup line and returns
    [True]; the handler ends the conversation, the record of the user is
    stored, and the user is shown what a run with a working file system
    shows: the reward message whenever the transaction id can be
    shortened. The file is as it was when it could not be opened, and has
    the part of the line that got through at its end when the write was
    cut off. *)
Theorem append_failure_isolated dumps (user : User.t) (text : string)
    (env : Env.t) (w : world) (d : list (string * json)) :
  reaches_payout user text env w ->
  Env.payout env = Responded (JObj d) ->
  py_eq_int (default JNull (dict_get d "status")) 200 = true ->
  Env.write_ok env = false ->
  let email := Text.lower (Text.strip text) in
  let r := handle_email dumps user text env w in
  let r_ok := handle_email dumps user text (with_write Written env) w in
  returned (save_email dumps (Env.write env) (Env.strftime_now env) email user w)
    = inr true /\
  returned r = inr END /\
  In (LogError (ErrorSavingEmail OSError)) (trace_of r) /\
  In (LogInfo (BackupEmailLog email (User.id user))) (trace_of r) /\
  count_events is_file_write (trace_of r) = 0%nat /\
  (Env.write env = NotOpened -> email_file (world_of r) = email_file w) /\
  (forall n, Env.write env = Interrupted n ->
     email_file (world_of r) =
       Some (default EmptyString (email_file w)
             +:+ Text.take n (written_line dumps user text env))) /\
  user_claims (world_of r) =
    <[user_key user := Claim.Build (Env.time_at_record env) email]> (user_claims w) /\
  user_claims (world_of r) = user_claims (world_of r_ok) /\
  replies (trace_of r) = replies (trace_of r_ok) /\
  edits (trace_of r) = edits (trace_of r_ok) /\
  (forall short_tx,
     shorten (default (JStr "N/A") (dict_get d "payout_user_hash")) = inr short_tx ->
     edits (trace_of r) = [RewardSent AMOUNT email short_tx]).
Proof.
  intros H Hout Hst Hfail email r r_ok.
  pose proof (handle_email_success dumps user text env w d H Hout Hst) as Hr.
  pose proof (handle_email_success dumps user text (with_write Written env) w d
                (reaches_payout_with_write Written _ _ _ _ H) Hout Hst) as Hrok.
  fold r in Hr. fold r_ok in Hrok.
  split; [apply save_email_returns |].
  rewrite Hr, Hrok.
  unfold world_after_success, file_after_save, save_trace, success_ending,
    count_events.
  rewrite Hfail. unfold Env.write_ok in Hfail. cbn.
  split; [reflexivity |].
  split; [tauto |].
  split; [tauto |].
  split.
  { destruct (shorten (default (JStr "N/A") (dict_get d "payout_user_hash")));
      reflexivity. }
  split; [intros ->; reflexivity |].
  split; [intros n ->; reflexivity |].
  split; [reflexivity |].
  split; [reflexivity |].
  split.
  { destruct (shorten (default (JStr "N/A") (dict_get d "payout_user_hash")));
      reflexivity. }
  split.
  - destruct (shorten (default (JStr "N/A") (dict_get d "payout_user_hash")));
      reflexivity.
  - intros short_tx Hshort. rewrite Hshort. reflexivity.
Qed.

Lemma append_failure_isolated_witness :
  let cut := handle_email MiniJson.dumps alice "a@b.co"
               (env_disk_full 5000 (Responded sent)) one_line_world in
  let refused := handle_email MiniJson.dumps alice "a@b.co"
                   (env_read_only 5000 (Responded sent)) empty_world in
  returned cut = inr END /\
  email_file (world_of cut) = Some (one_line_text +:+ Text.take 10 alice_line) /\
  user_claims (world_of cut) = {[ "42" := Claim.Build 5001 "a@b.co" ]} /\
  edits (trace_of cut) = [RewardSent AMOUNT "a@b.co" (JStr "abc123def456...")] /\
  email_file (world_of refused) = None /\
  edits (trace_of refused) = [RewardSent AMOUNT "a@b.co" (JStr "abc123def456...")].
Proof.
  assert (Hreach : forall env w, user_claims w = ∅ ->
                     reaches_payout alice "a@b.co" env w).
  { intros env w Hw. split; [reflexivity |]. intros record Hrec.
    rewrite Hw, lookup_empty in Hrec. discriminate Hrec. }
  destruct (append_failure_isolated MiniJson.dumps alice "a@b.co"
              (env_disk_full 5000 (Responded sent)) one_line_world _
              (Hreach _ one_line_world eq_refl) eq_refl eq_refl eq_refl)
    as (_ & Hret & _ & _ & _ & _ & Hcut & Hmap & _ & _ & _ & Hshown).
  destruct (append_failure_isolated MiniJson.dumps alice "a@b.co"
              (env_read_only 5000 (Responded sent)) empty_world _
              (Hreach _ empty_world eq_refl) eq_refl eq_refl eq_refl)
    as (_ & _ & _ & _ & _ & Hfile & _ & _ & _ & _ & _ & Hshown').
  cbv zeta. split; [exact Hret |].
  split; [rewrite (Hcut 10%nat eq_refl); reflexivity |].
  split; [rewrite Hmap; reflexivity |].
  split; [apply Hshown; reflexivity |].
  split; [exact (Hfile eq_refl) |].
  apply Hshown'. reflexivity.
Defined.

(** ** The 60 second check *)

(** The check lets the attempt through exactly when the user has no
    record or the last stored claim is at least 60 seconds old; 86400
    plays no part. Turned away, the user is told to wait, the
    conversation ends and nothing changes. *)
Lemma throttle_decision dumps (user : User.t) (text : string) (env : Env.t)
    (w : world) :
  is_valid_email (Text.lower (Text.strip text)) = true ->
  let r := handle_email dumps user text env w in
  (count_events is_http_post (trace_of r) = 1%nat <-> reaches_payout user text env w) /\
  (~ reaches_payout user text env w ->
     r = (inr END, w, [ReplyText PleaseWait])).
Proof.
  intros Hvalid r.
  destruct (attempt_cases user text env w) as [Hbad | [[_ (rec & Hrec & Hsoon)] | H]].
  - congruence.
  - assert (Hnot : ~ reaches_payout user text env w).
    { intros [_ Hopen]. specialize (Hopen rec Hrec). lra. }
    assert (Hr : r = (inr END, w, [ReplyText PleaseWait])).
    { unfold r. now apply (handle_email_throttled dumps user text env w rec). }
    split; [| auto]. rewrite Hr. split; [discriminate | tauto].
  - split; [| tauto]. split; [auto |]. intros _.
    apply (payout_outcome_classified dumps user text env w H).
Qed.

(** C5 at a second attempt one second after a declined one: no record
    was stored for the declined attempt, so the check has nothing to
    compare with and the second attempt is sent to FaucetPay as well. *)
Theorem retry_after_rejection_not_throttled :
  let first := handle_email MiniJson.dumps alice "a@b.co"
                 (env_at 1000 (Responded declined)) empty_world in
  let second := handle_email MiniJson.dumps alice "a@b.co"
                  (env_at 1001 (Responded declined)) (world_of first) in
  count_events is_http_post (trace_of first) = 1%nat /\
  world_of first = empty_world /\
  count_events is_http_post (trace_of second) = 1%nat /\
  replies (trace_of second) = [Processing].
Proof. vm_compute. repeat split. Qed.

(** After a paid attempt the same second attempt is turned away. *)
Example retry_after_success_throttled :
  let first := handle_email MiniJson.dumps alice "a@b.co"
                 (env_at 1000 (Responded sent)) empty_world in
  let second := handle_email MiniJson.dumps alice "a@b.co"
                  (env_at 1002 (Responded sent)) (world_of first) in
  count_events is_http_post (trace_of second) = 0%nat /\
  replies (trace_of second) = [PleaseWait].
Proof. vm_compute. repeat split. Qed.

(** ** The history file *)

Section History.

Variable dumps : json -> string.
Variable loads : string -> option json.

Local Abbreviation nl := (String Text.LF EmptyString).

Lemma append_cons (c : ascii) (a b : string) :
  String c a +:+ b = String c (a +:+ b).
Proof. reflexivity. Qed.

Lemma append_nil (b : string) : EmptyString +:+ b = b.
Proof. reflexivity. Qed.

Lemma append_assoc (a b c : string) : (a +:+ b) +:+ c = a +:+ (b +:+ c).
Proof.
  induction a as [|x a IH]; [reflexivity |].
  now rewrite !append_cons, IH.
Qed.

Lemma append_empty_r (s : string) : s +:+ EmptyString = s.
Proof. induction s as [|c s IH]; [reflexivity |]. now rewrite append_cons, IH. Qed.

Lemma lines_text_snoc (lines : list string) (l : string) :
  lines_text (lines ++ [l]) = lines_text lines +:+ (l +:+ nl).
Proof.
  induction lines as [|x lines IH]; cbn [lines_text app].
  - reflexivity.
  - rewrite IH, append_assoc, append_cons. reflexivity.
Qed.

Lemma universal_newlines_app (s rest : string) :
  Text.all_chars no_newline s = true ->
  Text.universal_newlines (s +:+ String Text.LF rest) =
    s +:+ String Text.LF (Text.universal_newlines rest).
Proof.
  induction s as [|c s IH]; intros Hs.
  - reflexivity.
  - cbn in Hs. apply andb_true_iff in Hs as [Hc Hs].
    unfold is_newline in Hc. apply negb_true_iff, orb_false_iff in Hc as [_ Hcr].
    rewrite !append_cons.
    cbn [Text.universal_newlines]. rewrite Hcr.
    destruct s; rewrite <- (IH Hs); reflexivity.
Qed.

Lemma split_lines_app (s rest : string) :
  Text.all_chars no_newline s = true ->
  Text.split_lines (s +:+ String Text.LF rest) = (s +:+ nl) :: Text.split_lines rest.
Proof.
  induction s as [|c s IH]; intros Hs.
  - reflexivity.
  - cbn in Hs. apply andb_true_iff in Hs as [Hc Hs].
    unfold is_newline in Hc. apply negb_true_iff, orb_false_iff in Hc as [Hlf _].
    rewrite !append_cons.
    cbn [Text.split_lines]. rewrite Hlf, (IH Hs). reflexivity.
Qed.

Lemma readlines_lines_text (lines : list string) :
  Forall (fun l => Text.all_chars no_newline l = true) lines ->
  Text.readlines (lines_text lines) = map (fun l => l +:+ nl) lines.
Proof.
  unfold Text.readlines. induction 1 as [|l lines Hl _ IH]; cbn [lines_text map].
  - reflexivity.
  - rewrite (universal_newlines_app _ _ Hl), (split_lines_app _ _ Hl).
    now rewrite IH.
Qed.

Lemma load_lines_entries (vs : list json) (emails : list json) :
  Forall (codec_ok dumps loads) vs ->
  load_lines loads (map (fun l => l +:+ nl) (map dumps vs)) emails = inr (emails ++ vs).
Proof.
  intros Hvs. revert emails.
  induction Hvs as [|v vs (Hnl & Hstrip & Hne & Hload) _ IH]; intros emails.
  - cbn. now rewrite app_nil_r.
  - cbn [map load_lines]. rewrite Hstrip.
    destruct (dumps v) eqn:Hd; [congruence |].
    rewrite Hload, IH, <- app_assoc. reflexivity.
Qed.

(** A file made of entry lines reads back as the entries. *)
Lemma get_all_emails_entries (w : world) (vs : list json) :
  default EmptyString (email_file w) = lines_text (map dumps vs) ->
  (email_file w = None -> vs = []) ->
  Forall (codec_ok dumps loads) vs ->
  get_all_emails loads true w = (inr vs, w, []).
Proof.
  intros Htext Hnone Hvs. unfold get_all_emails. run.
  destruct (email_file w) as [content|].
  - cbn in Htext. subst content. run.
    rewrite readlines_lines_text.
    + now rewrite (load_lines_entries vs [] Hvs).
    + clear -Hvs. induction Hvs as [|v vs Hv _ IH]; constructor; [apply Hv | exact IH].
  - now rewrite Hnone.
Qed.

(** The calls of [save_email] that succeed add their entries at the end
    of the file, in order; what was there stays, and the calls that fail
    before a character is written leave the text of the file alone. *)
Lemma save_all_file (calls : list Call.t) (w : world) (vs : list json) :
  Forall (fun c => all_or_nothing (Call.write c) = true) calls ->
  default EmptyString (email_file w) = lines_text (map dumps vs) ->
  (email_file w = None -> vs = []) ->
  let w' := world_of (save_all dumps calls w) in
  let vs' := vs ++ map entry_of_call (List.filter Call.ok calls) in
  default EmptyString (email_file w') = lines_text (map dumps vs') /\
  (email_file w' = None -> vs' = []) /\
  user_claims w' = user_claims w /\
  returned (save_all dumps calls w) = inr tt.
Proof.
  intros Hwhole. revert w vs.
  induction Hwhole as [|c calls Hc _ IH]; intros w vs Htext Hnone.
  - cbn. rewrite app_nil_r. auto.
  - cbn [save_all List.filter].
    change (Call.ok c) with (match Call.write c with Written => true | _ => false end).
    unfold save_email, save_to_alternative, append_file.
    destruct (Call.write c) as [| |[|n]]; [| | | discriminate Hc]; run.
    + match goal with
      | |- context [save_all dumps calls ?w1] =>
          destruct (IH w1 (vs ++ [entry_of_call c])) as (H1 & H2 & H3 & H4)
      end.
      * cbn [email_file default]. rewrite Htext, List.map_app. cbn [map].
        rewrite lines_text_snoc. reflexivity.
      * discriminate.
      * cbv zeta in H1, H2, H3, H4. unfold returned, world_of in *.
        destruct (save_all dumps calls _) as [[res w2] t2].
        cbn in *. rewrite <- app_assoc in H1, H2. cbn in H1, H2. subst res. auto.
    + destruct (IH w vs Htext Hnone) as (H1 & H2 & H3 & H4).
      cbv zeta in H1, H2, H3, H4. unfold returned, world_of in *.
      destruct w as [claims file]. cbn in *.
      destruct (save_all dumps calls _) as [[res w2] t2].
      cbn in *. subst res. auto.
    + match goal with
      | |- context [save_all dumps calls ?w1] =>
          destruct (IH w1 vs) as (H1 & H2 & H3 & H4)
      end.
      * cbn [email_file default Text.take]. now rewrite append_empty_r.
      * discriminate.
      * cbv zeta in H1, H2, H3, H4. unfold returned, world_of in *.
        destruct (save_all dumps calls _) as [[res w2] t2].
        cbn in *. subst res. auto.
Qed.

(** Whatever the calls of [save_email] do to the file, they return and
    leave the dictionary alone, and a file that is there stays. *)
Lemma save_all_frame (calls : list Call.t) (w : world) :
  returned (save_all dumps calls w) = inr tt /\
  user_claims (world_of (save_all dumps calls w)) = user_claims w /\
  (email_file w <> None -> email_file (world_of (save_all dumps calls w)) <> None).
Proof.
  revert w. induction calls as [|c calls IH]; intros w.
  - cbn. auto.
  - cbn [save_all]. unfold save_email, save_to_alternative, append_file.
    destruct (Call.write c); run;
      match goal with
      | |- context [save_all dumps calls ?w1] =>
          destruct (IH w1) as (H1 & H2 & H3);
          unfold returned, world_of in *;
          destruct (save_all dumps calls w1) as [[res w2] t2]
      end;
      cbn in *; subst res; (split; [reflexivity | split; [exact H2 |]]).
    + intros _. now apply H3.
    + destruct w as [claims file]. exact H3.
    + intros _. now apply H3.
Qed.

Lemma clear_emails_file (ok : bool) (w : world) :
  returned (clear_emails ok w) = inr true ->
  email_file (world_of (clear_emails ok w)) = None.
Proof.
  unfold clear_emails. run.
  destruct (email_file w) eqn:Hfile; [| intros _; exact Hfile].
  destruct ok; [reflexivity | discriminate].
Qed.

Lemma get_all_emails_no_file (ok : bool) (w : world) :
  email_file w = None ->
  get_all_emails loads ok w = (inr [], w, []).
Proof. intros Hfile. unfold get_all_emails. run. now rewrite Hfile. Qed.

Lemma codec_of_written (calls : list Call.t) :
  Forall (fun c => Call.ok c = true -> codec_ok dumps loads (entry_of_call c)) calls ->
  Forall (codec_ok dumps loads) (map entry_of_call (List.filter Call.ok calls)).
Proof.
  induction 1 as [|c calls Hc _ IH]; cbn [List.filter map]; [constructor |].
  destruct (Call.ok c); [constructor; auto | exact IH].
Qed.

Lemma read_after_saves (claims : gmap string Claim.t) (calls : list Call.t) :
  Forall (fun c => all_or_nothing (Call.write c) = true) calls ->
  Forall (fun c => Call.ok c = true -> codec_ok dumps loads (entry_of_call c)) calls ->
  let w := world_of (save_all dumps calls (World claims None)) in
  get_all_emails loads true w =
    (inr (map entry_of_call (List.filter Call.ok calls)), w, []).
Proof.
  intros Hwhole Hcodec w.
  destruct (save_all_file calls (World claims None) [] Hwhole eq_refl (fun _ => eq_refl))
    as (Htext & Hnone & _ & _).
  cbv zeta in Htext, Hnone. cbn [app] in Htext, Hnone. fold w in Htext, Hnone.
  apply (get_all_emails_entries w _ Htext Hnone).
  now apply codec_of_written.
Qed.

Lemma filter_all_written (calls : list Call.t) :
  Forall (fun c => Call.write c = Written) calls ->
  List.filter Call.ok calls = calls.
Proof.
  induction 1 as [|c calls Hc _ IH]; [reflexivity |].
  cbn [List.filter].
  change (Call.ok c) with (match Call.write c with Written => true | _ => false end).
  now rewrite Hc, IH.
Qed.

(** C6. From a state with nothing persisted, after any sequence of calls
    of [save_email] each of which either goes through or fails before a
    character is written, [get_all_emails] returns the entries of the
    calls that went through, one for each, in the order of the calls: all
    N of them after N calls that all went through. It returns the empty
    list when there is no file, and after a [clear_emails] that reports
    success it returns the empty list. *)
Theorem history_read_back (claims : gmap string Claim.t) (calls : list Call.t) :
  Forall (fun c => all_or_nothing (Call.write c) = true) calls ->
  Forall (fun c => Call.ok c = true -> codec_ok dumps loads (entry_of_call c)) calls ->
  let w := world_of (save_all dumps calls (World claims None)) in
  let entries := map entry_of_call (List.filter Call.ok calls) in
  returned (get_all_emails loads true w) = inr entries /\
  List.length entries = List.length (List.filter Call.ok calls) /\
  (Forall (fun c => Call.write c = Written) calls ->
     entries = map entry_of_call calls /\ List.length entries = List.length calls) /\
  (forall ok, returned (get_all_emails loads ok (World claims None)) = inr []) /\
  (forall ok ok' w0,
     returned (clear_emails ok w0) = inr true ->
     returned (get_all_emails loads ok' (world_of (clear_emails ok w0))) = inr []) /\
  (forall w0, returned (clear_emails true w0) = inr true).
Proof.
  intros Hwhole Hcodec w entries.
  split; [| split; [| split; [| split; [| split]]]].
  - unfold w, entries. now rewrite (read_after_saves claims calls Hwhole Hcodec).
  - unfold entries. apply length_map.
  - intros Hall. unfold entries. rewrite (filter_all_written calls Hall).
    split; [reflexivity | apply length_map].
  - intros ok. now rewrite get_all_emails_no_file.
  - intros ok ok' w0 Hcleared.
    rewrite get_all_emails_no_file; [reflexivity |].
    now apply clear_emails_file.
  - intros w0. unfold clear_emails. run. now destruct (email_file w0).
Qed.

(** ** Lines that do not parse *)

Lemma load_lines_bad (lines : list string) (line : string) :
  In line lines ->
  Text.strip line <> EmptyString ->
  loads (Text.strip line) = None ->
  forall emails, load_lines loads lines emails = inl JSONDecodeError.
Proof.
  intros Hin Hblank Hbad.
  induction lines as [|l lines IH]; intros emails; [destruct Hin |].
  cbn [load_lines].
  destruct Hin as [-> | Hin].
  - destruct (Text.strip line) eqn:Hs; [congruence |]. now rewrite Hbad.
  - destruct (Text.strip l) as [|a s]; [now apply IH |].
    destruct (loads (String a s)); [now apply IH | reflexivity].
Qed.

Lemma load_lines_skip_blank (before after : list string) (blank : string) :
  Text.strip blank = EmptyString ->
  forall emails,
    load_lines loads (before ++ blank :: after) emails =
    load_lines loads (before ++ after) emails.
Proof.
  intros Hblank. induction before as [|l before IH]; intros emails.
  - cbn [app load_lines]. now rewrite Hblank.
  - cbn [app load_lines]. destruct (Text.strip l) as [|a s]; [apply IH |].
    destruct (loads (String a s)); [apply IH | reflexivity].
Qed.

Lemma load_lines_hold (lines : list string) (vs : list json) :
  lines_hold loads lines vs ->
  forall emails, load_lines loads lines emails = inr (emails ++ vs).
Proof.
  induction 1 as [|line lines vs Hblank _ IH|line lines v vs Hblank Hload _ IH];
    intros emails; cbn [load_lines].
  - now rewrite app_nil_r.
  - rewrite Hblank. apply IH.
  - destruct (Text.strip line) eqn:Hs; [congruence |].
    rewrite Hload, IH, <- app_assoc. reflexivity.
Qed.

(** C8. When some line of the file is not blank and does not load, the
    reading of the whole file is abandoned: [get_all_emails] returns the
    empty list whatever the other lines hold, and logs the error. Blank
    lines are passed over without a word: when every line is blank or
    loads, [get_all_emails] returns the values of the lines that are not
    blank, in order, and logs nothing; so the file reads as it does
    without a blank line. *)
Theorem unparseable_line_hides_history (ok : bool) (w : world) (content : string) :
  email_file w = Some content ->
  (forall line,
     In line (Text.readlines content) ->
     Text.strip line <> EmptyString ->
     loads (Text.strip line) = None ->
     returned (get_all_emails loads ok w) = inr [] /\
     world_of (get_all_emails loads ok w) = w /\
     exists e, trace_of (get_all_emails loads ok w) = [LogError (ErrorReadingEmails e)])
  /\
  (forall vs,
     lines_hold loads (Text.readlines content) vs ->
     get_all_emails loads true w = (inr vs, w, []))
  /\
  (forall before after blank w' content',
     Text.readlines content = before ++ blank :: after ->
     Text.strip blank = EmptyString ->
     email_file w' = Some content' ->
     Text.readlines content' = before ++ after ->
     returned (get_all_emails loads ok w) = returned (get_all_emails loads ok w')).
Proof.
  intros Hfile. split; [| split].
  - intros line Hin Hblank Hbad. unfold get_all_emails. run. rewrite Hfile.
    destruct ok; run.
    + rewrite (load_lines_bad _ line Hin Hblank Hbad). cbn. eauto.
    + cbn. eauto.
  - intros vs Hhold. unfold get_all_emails. run. rewrite Hfile. run.
    now rewrite (load_lines_hold _ vs Hhold []).
  - intros before after blank w' content' Hlines Hblank Hfile' Hlines'.
    unfold get_all_emails. run. rewrite Hfile, Hfile'.
    destruct ok; run; [| reflexivity].
    rewrite Hlines, Hlines', (load_lines_skip_blank before after blank Hblank).
    destruct (load_lines loads (before ++ after) []); reflexivity.
Qed.

End History.

Lemma history_read_back_witness :
  let w := world_of (save_all MiniJson.dumps three_calls empty_world) in
  returned (get_all_emails MiniJson.loads true w) =
    inr [ entry_of "2024-01-01 00:00:00" "a@b.co" alice;
          entry_of "2024-01-01 00:00:02" "b@b.co" bob ] /\
  returned (get_all_emails MiniJson.loads true (world_of (clear_emails true w))) =
    inr [].
Proof.
  assert (Hwhole : Forall (fun c => all_or_nothing (Call.write c) = true) three_calls).
  { repeat constructor. }
  assert (Hcodec : Forall (fun c => Call.ok c = true ->
                     codec_ok MiniJson.dumps MiniJson.loads (entry_of_call c))
                     three_calls).
  { repeat constructor; try discriminate;
      vm_compute; try reflexivity; discriminate. }
  destruct (history_read_back MiniJson.dumps MiniJson.loads ∅ three_calls
              Hwhole Hcodec)
    as (Hread & _ & _ & _ & Hcleared & Hclear).
  split; [exact Hread |].
  apply Hcleared, Hclear.
Defined.

(** An append that is cut off after ten characters leaves a line that
    does not load: from then on [get_all_emails] returns the empty list,
    also after the next append has gone through. *)
Example interrupted_append_hides_history :
  let w := world_of (save_all MiniJson.dumps cut_calls empty_world) in
  email_file w =
    Some (lines_text [alice_line]
          +:+ Text.take 10 (MiniJson.dumps (entry_of "2024-01-01 00:00:01" "b@b.co" bob))
          +:+ lines_text [MiniJson.dumps (entry_of "2024-01-01 00:00:02" "b@b.co" bob)]) /\
  get_all_emails MiniJson.loads true w =
    (inr [], w, [LogError (ErrorReadingEmails JSONDecodeError)]).
Proof. vm_compute. split; reflexivity. Qed.

Lemma unparseable_line_hides_history_witness :
  returned (get_all_emails MiniJson.loads true damaged_world) = inr [] /\
  get_all_emails MiniJson.loads true blank_line_world =
    (inr [entry_of "2024-01-01 00:00:00" "a@b.co" alice], blank_line_world, []).
Proof.
  split.
  - apply (proj1 (unparseable_line_hides_history MiniJson.loads true damaged_world
                    damaged_text eq_refl)
             (String.append "oops" (String Text.LF EmptyString))).
    + vm_compute. right. left. reflexivity.
    + vm_compute. discriminate.
    + vm_compute. reflexivity.
  - apply (proj1 (proj2 (unparseable_line_hides_history MiniJson.loads true
                           blank_line_world blank_line_text eq_refl))).
    assert (Hlines : Text.readlines blank_line_text =
                       [String.append alice_line (String Text.LF EmptyString);
                        String.append "  " (String Text.LF EmptyString)])
      by (vm_compute; reflexivity).
    rewrite Hlines.
    apply hold_entry; [vm_compute; discriminate | vm_compute; reflexivity |].
    apply hold_blank; [vm_compute; reflexivity |].
    apply hold_nil.
Defined.

(** ** The pattern of [is_valid_email] *)

Lemma max_repeat_spec (cls : ascii -> bool) (k : bool -> string -> bool) :
  (forall b b' s, k b s = k b' s) ->
  forall s min at_start,
    Re.max_repeat cls k min at_start s = true <->
    exists pre post, s = pre +:+ post /\ Text.all_chars cls pre = true /\
                     (min <= String.length pre)%nat /\ k false post = true.
Proof.
  intros Hk. induction s as [|c s IH]; intros min at_start; cbn [Re.max_repeat].
  - rewrite orb_false_l. split.
    + destruct min; [| discriminate]. intros H.
      exists EmptyString, EmptyString. rewrite (Hk false at_start). now repeat split.
    + intros (pre & post & Hs & _ & Hmin & Hpost).
      destruct pre; [| discriminate]. cbn in Hmin. rewrite append_nil in Hs.
      subst post. destruct min; [| lia]. now rewrite (Hk at_start false).
  - rewrite orb_true_iff, andb_true_iff, IH. split.
    + intros [[Hc (pre & post & -> & Hpre & Hmin & Hpost)] | H].
      * exists (String c pre), post. cbn. rewrite Hc, Hpre. repeat split; [lia | done].
      * destruct min; [| discriminate].
        exists EmptyString, (String c s). rewrite (Hk false at_start).
        repeat split; [cbn; lia | done].
    + intros (pre & post & Hs & Hpre & Hmin & Hpost).
      destruct pre as [|c' pre].
      * right. cbn in Hmin. rewrite append_nil in Hs. subst post.
        destruct min; [| lia]. now rewrite (Hk at_start false).
      * left. rewrite append_cons in Hs. injection Hs as <- ->.
        cbn in Hpre, Hmin. apply andb_true_iff in Hpre as [Hc Hpre].
        split; [exact Hc |]. exists pre, post. repeat split; [done | lia | done].
Qed.

Lemma at_end_spec (s : string) :
  Re.at_end s = true <-> s = EmptyString \/ s = String Text.LF EmptyString.
Proof.
  destruct s as [|c [|c' s]]; cbn.
  - tauto.
  - rewrite Ascii.eqb_eq. split; [intros ->; now right | now intros [? | [= ->]]].
  - split; [discriminate | now intros [? | ?]].
Qed.

(** What the pattern accepts: the shape, possibly followed by one line
    feed. *)
Lemma pattern_spec (s : string) :
  Re.re_match pattern s = true <->
  exists l d t tail : string,
    s = l +:+ "@" +:+ d +:+ "." +:+ t +:+ tail /\
    (1 <= String.length l)%nat /\ Text.all_chars local_class l = true /\
    (1 <= String.length d)%nat /\ Text.all_chars domain_class d = true /\
    (2 <= String.length t)%nat /\ Text.all_chars is_alpha t = true /\
    (tail = EmptyString \/ tail = String Text.LF EmptyString).
Proof.
  unfold Re.re_match, pattern. cbn [Re.matches andb].
  rewrite max_repeat_spec by reflexivity.
  split.
  - intros (l & p1 & -> & Hl & Hl1 & H).
    destruct p1 as [|c p2]; [discriminate |].
    apply andb_true_iff in H as [Hc H]. apply Ascii.eqb_eq in Hc. subst c.
    apply max_repeat_spec in H as (d & p3 & -> & Hd & Hd1 & H); [| reflexivity].
    destruct p3 as [|c p4]; [discriminate |].
    apply andb_true_iff in H as [Hc H]. apply Ascii.eqb_eq in Hc. subst c.
    apply max_repeat_spec in H as (t & tail & -> & Ht & Ht2 & H); [| reflexivity].
    rewrite andb_true_r in H. apply at_end_spec in H.
    exists l, d, t, tail. repeat split; auto.
  - intros (l & d & t & tail & -> & Hl1 & Hl & Hd1 & Hd & Ht2 & Ht & Htail).
    exists l, (String "@" (d +:+ String "." (t +:+ tail))).
    repeat split; auto.
    rewrite Ascii.eqb_refl, andb_true_l.
    apply max_repeat_spec; [reflexivity |].
    exists d, (String "." (t +:+ tail)). repeat split; auto.
    rewrite Ascii.eqb_refl, andb_true_l.
    apply max_repeat_spec; [reflexivity |].
    exists t, tail. repeat split; auto.
    rewrite andb_true_r. now apply at_end_spec.
Qed.

(** [is_valid_email] accepts the strings of the shape and the strings of
    the shape followed by one line feed, and no others. *)
Lemma is_valid_email_spec (s : string) :
  is_valid_email s = true <->
  email_shape s \/
  exists s', s = s' +:+ String Text.LF EmptyString /\ email_shape s'.
Proof.
  unfold is_valid_email. rewrite pattern_spec. split.
  - intros (l & d & t & tail & -> & Hl1 & Hl & Hd1 & Hd & Ht2 & Ht & [-> | ->]).
    + left. exists l, d, t. rewrite append_empty_r. now repeat split.
    + right. exists (l +:+ "@" +:+ d +:+ "." +:+ t). split.
      * now rewrite !append_assoc.
      * exists l, d, t. now repeat split.
  - intros [(l & d & t & -> & H) | (s' & -> & l & d & t & -> & H)].
    + exists l, d, t, EmptyString. rewrite append_empty_r. split; [done |].
      intuition.
    + exists l, d, t, (String Text.LF EmptyString). split.
      * now rewrite !append_assoc.
      * intuition.
Qed.

Lemma all_chars_app (p : ascii -> bool) (a b : string) :
  Text.all_chars p (a +:+ b) = Text.all_chars p a && Text.all_chars p b.
Proof.
  induction a as [|c a IH]; [reflexivity |].
  rewrite append_cons. cbn [Text.all_chars]. now rewrite IH, andb_assoc.
Qed.

Lemma all_chars_impl (p q : ascii -> bool) (s : string) :
  (forall c, p c = true -> q c = true) ->
  Text.all_chars p s = true -> Text.all_chars q s = true.
Proof.
  intros Hpq. induction s as [|c s IH]; [reflexivity |]. cbn.
  rewrite !andb_true_iff. intros [Hc Hs]. auto.
Qed.

Lemma class_not_line_feed (cls : ascii -> bool) (c : ascii) :
  cls Text.LF = false -> cls c = true -> not_line_feed c = true.
Proof.
  intros Hlf Hc. unfold not_line_feed.
  destruct (Ascii.eqb c Text.LF) eqn:Heq; [| reflexivity].
  apply Ascii.eqb_eq in Heq. congruence.
Qed.

(** A string of the shape has no line feed in it. *)
Lemma email_shape_no_line_feed (s : string) :
  email_shape s -> Text.all_chars not_line_feed s = true.
Proof.
  intros (l & d & t & -> & _ & Hl & _ & Hd & _ & Ht).
  rewrite !all_chars_app, !andb_true_iff. repeat split.
  - revert Hl. apply all_chars_impl. intros c. now apply class_not_line_feed.
  - revert Hd. apply all_chars_impl. intros c. now apply class_not_line_feed.
  - revert Ht. apply all_chars_impl. intros c. now apply class_not_line_feed.
Qed.

(** On a string that does not end in a line feed the validator accepts
    exactly the shape. *)
Lemma is_valid_email_exact (s : string) :
  (forall s', s <> s' +:+ String Text.LF EmptyString) ->
  is_valid_email s = true <-> email_shape s.
Proof.
  intros Hend. rewrite is_valid_email_spec. split; [| now left].
  intros [H | (s' & Hs & _)]; [exact H | now destruct (Hend s')].
Qed.

Lemma rstrip_end (s s' : string) (c : ascii) :
  Text.isspace c = true -> Text.rstrip s <> s' +:+ String c EmptyString.
Proof.
  intros Hc. revert s'. induction s as [|a s IH]; intros s'; cbn [Text.rstrip].
  - destruct s'; discriminate.
  - destruct (Text.rstrip s) as [|b r] eqn:Hr.
    + destruct (Text.isspace a) eqn:Ha.
      * destruct s'; discriminate.
      * destruct s' as [|x [|y s']]; try discriminate.
        rewrite append_nil. intros [= ->]. congruence.
    + destruct s' as [|x s']; [discriminate |].
      rewrite append_cons. intros [= -> H]. now apply (IH s').
Qed.

Lemma lower_char_line_feed (c : ascii) :
  Text.lower_char c = Text.LF -> c = Text.LF.
Proof.
  destruct c as [[] [] [] [] [] [] [] []]; vm_compute; congruence.
Qed.

Lemma lower_end (s s' : string) :
  Text.lower s = s' +:+ String Text.LF EmptyString ->
  exists s0, s = s0 +:+ String Text.LF EmptyString.
Proof.
  revert s'. induction s as [|a s IH]; intros s'; cbn [Text.lower].
  - destruct s'; discriminate.
  - destruct s' as [|x s'].
    + rewrite append_nil. intros [= Ha Hs]. destruct s; [| discriminate].
      apply lower_char_line_feed in Ha. subst a. now exists EmptyString.
    + rewrite append_cons. intros [= _ Hs]. destruct (IH s' Hs) as (s0 & ->).
      now exists (String a s0).
Qed.

(** The address the handler validates is stripped: for it the validator
    accepts exactly the shape. *)
Lemma handler_validates_shape (text : string) :
  let email := Text.lower (Text.strip text) in
  is_valid_email email = true <-> email_shape email.
Proof.
  intros email. apply is_valid_email_exact. intros s' Hs.
  apply lower_end in Hs as (s0 & Hs).
  now apply (rstrip_end (Text.lstrip text) s0 Text.LF).
Qed.

(** C3 at the address followed by a line feed: [$] also matches just
    before a final line feed, so the validator accepts a string that does
    not have the shape. The four sample values of the specification come
    out as stated. *)
Theorem trailing_line_feed_accepted :
  is_valid_email (String.append "a@b.co" (String Text.LF EmptyString)) = true /\
  ~ email_shape (String.append "a@b.co" (String Text.LF EmptyString)) /\
  is_valid_email "a@b.co" = true /\
  is_valid_email "a@b" = false /\
  is_valid_email "a.b@c-d.com" = true /\
  is_valid_email "not-an-email" = false.
Proof.
  split; [reflexivity |]. split; [| repeat split].
  intros H. apply email_shape_no_line_feed in H. discriminate H.
Qed.

(** ** The codec reads what it writes

    The codec of [MiniJson] meets [codec_ok] at every entry, so the
    hypothesis of the history theorems can be met for all inputs. *)

Module MiniJsonFacts.
Import MiniJson.

Lemma parse_string_escape_char (c : ascii) (rest : string) :
  parse_string (escape_char c +:+ rest) = cons_to c (parse_string rest).
Proof.
  destruct c as [[] [] [] [] [] [] [] []]; reflexivity.
Qed.

Lemma parse_string_escape (s rest : string) :
  parse_string (escape s +:+ String dquote rest) = Some (s, rest).
Proof.
  induction s as [|c s IH].
  - reflexivity.
  - cbn [escape]. rewrite append_assoc, parse_string_escape_char, IH. reflexivity.
Qed.

Lemma string_of_uint_digits (u : Decimal.uint) :
  Text.all_chars is_digit (NilEmpty.string_of_uint u) = true.
Proof. induction u; cbn; auto. Qed.

Lemma span_digits_app (ds rest : string) :
  Text.all_chars is_digit ds = true ->
  match rest with String c _ => is_digit c = false | EmptyString => True end ->
  span_digits (ds +:+ rest) = (ds, rest).
Proof.
  intros Hds Hrest. induction ds as [|d ds IH].
  - rewrite append_nil. destruct rest as [|c rest]; [reflexivity |].
    cbn. now rewrite Hrest.
  - cbn in Hds. apply andb_true_iff in Hds as [Hd Hds].
    rewrite append_cons. cbn. rewrite Hd, (IH Hds). reflexivity.
Qed.

Lemma to_int_normal (i : Z) : Decimal.norm (Z.to_int i) = Z.to_int i.
Proof.
  pose proof (DecimalZ.to_of (Z.to_int i)) as H.
  rewrite DecimalZ.of_to in H. now symmetry.
Qed.

Lemma parse_digits (sign : string) (u : Decimal.uint) (n : Decimal.int) (rest : string) :
  u <> Decimal.Nil ->
  (u = Decimal.D0 Decimal.Nil \/ forall u', u <> Decimal.D0 u') ->
  NilZero.int_of_string (sign +:+ NilEmpty.string_of_uint u) = Some n ->
  ends_number rest ->
  match span_digits (NilEmpty.string_of_uint u +:+ rest) with
  | (EmptyString, _) => None
  | (String d ds as digits, rest) =>
      if Ascii.eqb d "0" && negb (String.eqb ds EmptyString) then None
      else if match rest with
              | String c _ => one_of ".eE" c
              | EmptyString => false
              end then None
      else match NilZero.int_of_string (sign +:+ digits) with
           | Some n => Some (JInt (Z.of_int n), rest)
           | None => None
           end
  end = Some (JInt (Z.of_int n), rest).
Proof.
  intros Hnil Hlead Hparse Hrest.
  rewrite span_digits_app.
  - assert (Hend : match rest with String c _ => one_of ".eE" c | EmptyString => false end = false).
    { destruct rest; [reflexivity | apply Hrest]. }
    destruct Hlead as [-> | Hlead].
    + cbn [NilEmpty.string_of_uint] in *. cbn [Ascii.eqb String.eqb negb andb].
      rewrite Hend. cbn. cbn in Hparse. now rewrite Hparse.
    + destruct u; try (now destruct Hnil); try (now destruct (Hlead u));
        cbn [NilEmpty.string_of_uint] in *;
        (replace (Ascii.eqb _ "0"%char) with false by reflexivity);
        cbn [andb]; rewrite Hend, Hparse; reflexivity.
  - apply string_of_uint_digits.
  - destruct rest; [exact I | apply Hrest].
Qed.

Lemma string_of_uint_nonnil (u : Decimal.uint) :
  u <> Decimal.Nil -> NilZero.string_of_uint u = NilEmpty.string_of_uint u.
Proof. destruct u; [now intros H | reflexivity ..]. Qed.

Lemma first_char_digit (u : Decimal.uint) (rest : string) :
  u <> Decimal.Nil ->
  exists c s, NilEmpty.string_of_uint u +:+ rest = String c s /\
              Ascii.eqb c "-" = false.
Proof.
  intros Hnil. destruct u; [now destruct Hnil | ..];
    cbn [NilEmpty.string_of_uint]; rewrite append_cons; eauto.
Qed.

Lemma parse_int_str_of_int (i : Z) (rest : string) :
  ends_number rest ->
  parse_int (Text.str_of_int i +:+ rest) = Some (JInt i, rest).
Proof.
  intros Hrest. unfold Text.str_of_int.
  pose proof (to_int_normal i) as Hnorm.
  pose proof (DecimalZ.of_to i) as Hof.
  destruct (Z.to_int i) as [u|u] eqn:Hd.
  - cbn [Decimal.norm] in Hnorm. injection Hnorm as Hu.
    assert (Hnil : u <> Decimal.Nil) by (rewrite <- Hu; apply unorm_nonnil).
    cbn [NilZero.string_of_int]. rewrite (string_of_uint_nonnil u Hnil).
    unfold parse_int.
    destruct (first_char_digit u rest Hnil) as (c & s & Hs & Hc).
    rewrite Hs, Hc, <- Hs.
    rewrite (parse_digits EmptyString u (Decimal.Pos u) rest Hnil); [now rewrite Hof | | | exact Hrest].
    + unfold Decimal.unorm in Hu.
      destruct (Decimal.nzhead u) eqn:Hz; [left; now symmetry | ..];
        right; intros u' Hu'; rewrite Hu in Hz; rewrite Hu' in Hz;
        now apply nzhead_nonzero in Hz.
    + rewrite append_nil, <- (string_of_uint_nonnil u Hnil).
      apply (NilZero.isi (Decimal.Pos u)); [| discriminate].
      now intros [= ->].
  - cbn [Decimal.norm] in Hnorm.
    assert (Hu : Decimal.nzhead u = u /\ u <> Decimal.Nil).
    { destruct (Decimal.nzhead u) eqn:Hz; try discriminate;
        injection Hnorm as <-; split; congruence. }
    destruct Hu as [Hu Hnil].
    cbn [NilZero.string_of_int]. rewrite (string_of_uint_nonnil u Hnil).
    unfold parse_int. rewrite append_cons.
    replace (Ascii.eqb "-" "-") with true by reflexivity.
    rewrite (parse_digits "-" u (Decimal.Neg u) rest Hnil); [now rewrite Hof | | | exact Hrest].
    + right. intros u' ->. now apply nzhead_nonzero in Hu.
    + rewrite append_cons, append_nil, <- (string_of_uint_nonnil u Hnil).
      apply (NilZero.isi (Decimal.Neg u)); [discriminate |].
      now intros [= ->].
Qed.

Ltac norm_app := repeat (rewrite append_assoc || rewrite append_cons || rewrite append_nil).

Lemma parse_value_space (fuel : nat) (s : string) :
  parse_value fuel (String " " s) = parse_value fuel s.
Proof. destruct fuel; reflexivity. Qed.

Lemma parse_value_quote (fuel : nat) (s : string) :
  parse_value (S fuel) (String dquote s) =
    match parse_string s with
    | Some (str, rest) => Some (JStr str, rest)
    | None => None
    end.
Proof. reflexivity. Qed.

Lemma parse_value_string (fuel : nat) (s rest : string) :
  parse_value (S fuel) (String dquote (escape s +:+ String dquote rest)) =
    Some (JStr s, rest).
Proof. now rewrite parse_value_quote, parse_string_escape. Qed.

Lemma parse_value_null (fuel : nat) (rest : string) :
  parse_value (S fuel) (String "n" (String "u" (String "l" (String "l" rest)))) =
    Some (JNull, rest).
Proof. reflexivity. Qed.

Lemma number_char (c : ascii) :
  c = "-"%char \/ is_digit c = true ->
  is_ws c = false /\ Ascii.eqb c dquote = false /\ Ascii.eqb c "[" = false /\
  Ascii.eqb c "{" = false /\ Ascii.eqb c "n" = false /\ Ascii.eqb c "t" = false /\
  Ascii.eqb c "f" = false.
Proof.
  destruct c as [[] [] [] [] [] [] [] []];
    (intros [H | H]; [try discriminate H | try discriminate H]);
    repeat split.
Qed.

Lemma str_of_int_first (i : Z) (rest : string) :
  exists c s, Text.str_of_int i +:+ rest = String c s /\
              (c = "-"%char \/ is_digit c = true).
Proof.
  unfold Text.str_of_int. destruct (Z.to_int i) as [u|u]; cbn [NilZero.string_of_int].
  - destruct u; cbn; rewrite append_cons; eauto.
  - rewrite append_cons. eauto.
Qed.

Lemma parse_value_int (fuel : nat) (i : Z) (rest : string) :
  ends_number rest ->
  parse_value (S fuel) (Text.str_of_int i +:+ rest) = Some (JInt i, rest).
Proof.
  intros Hrest. rewrite <- (parse_int_str_of_int i rest Hrest).
  destruct (str_of_int_first i rest) as (c & s & -> & Hc).
  apply number_char in Hc as (H1 & H2 & H3 & H4 & H5 & H6 & H7).
  cbn [parse_value skip_ws]. now rewrite H1, H2, H3, H4, H5, H6, H7.
Qed.

Lemma member_comma (value : string -> option (json * string)) (n : nat)
    (key text rest : string) (acc : list (string * json)) (v : json) :
  value text = Some (v, String "," rest) ->
  parse_members value (S n)
    (String dquote (escape key +:+ String dquote (String ":" text))) acc =
  parse_members value n rest (dict_set acc key v).
Proof.
  intros Hv.
  change (parse_members value (S n)
            (String dquote (escape key +:+ String dquote (String ":" text))) acc)
    with (match parse_string (escape key +:+ String dquote (String ":" text)) with
          | Some (key, s2) =>
              match skip_ws s2 with
              | String c s3 =>
                  if Ascii.eqb c ":" then
                    match value s3 with
                    | Some (v, rest) =>
                        match skip_ws rest with
                        | String c' r =>
                            if Ascii.eqb c' ","
                            then parse_members value n r (dict_set acc key v)
                            else if Ascii.eqb c' "}"
                            then Some (dict_set acc key v, r)
                            else None
                        | EmptyString => None
                        end
                    | None => None
                    end
                  else None
              | EmptyString => None
              end
          | None => None
          end).
  rewrite parse_string_escape.
  change (skip_ws (String ":" text)) with (String ":" text). cbn iota.
  change (Ascii.eqb ":" ":") with true. cbn iota. rewrite Hv. reflexivity.
Qed.

Lemma member_end (value : string -> option (json * string)) (n : nat)
    (key text rest : string) (acc : list (string * json)) (v : json) :
  value text = Some (v, String "}" rest) ->
  parse_members value (S n)
    (String dquote (escape key +:+ String dquote (String ":" text))) acc =
  Some (dict_set acc key v, rest).
Proof.
  intros Hv.
  change (parse_members value (S n)
            (String dquote (escape key +:+ String dquote (String ":" text))) acc)
    with (match parse_string (escape key +:+ String dquote (String ":" text)) with
          | Some (key, s2) =>
              match skip_ws s2 with
              | String c s3 =>
                  if Ascii.eqb c ":" then
                    match value s3 with
                    | Some (v, rest) =>
                        match skip_ws rest with
                        | String c' r =>
                            if Ascii.eqb c' ","
                            then parse_members value n r (dict_set acc key v)
                            else if Ascii.eqb c' "}"
                            then Some (dict_set acc key v, r)
                            else None
                        | EmptyString => None
                        end
                    | None => None
                    end
                  else None
              | EmptyString => None
              end
          | None => None
          end).
  rewrite parse_string_escape.
  change (skip_ws (String ":" text)) with (String ":" text). cbn iota.
  change (Ascii.eqb ":" ":") with true. cbn iota. rewrite Hv. reflexivity.
Qed.

Lemma parse_members_space (value : string -> option (json * string)) (n : nat)
    (s : string) (acc : list (string * json)) :
  parse_members value n (String " " s) acc = parse_members value n s acc.
Proof. destruct n; reflexivity. Qed.

Lemma parse_value_object (fuel : nat) (s : string) :
  parse_value (S fuel) (String "{" (String dquote s)) =
    match parse_members (parse_value fuel) (S (String.length s)) (String dquote s) [] with
    | Some (d, rest) => Some (JObj d, rest)
    | None => None
    end.
Proof. reflexivity. Qed.

Lemma string_length_app (a b : string) :
  String.length (a +:+ b) = (String.length a + String.length b)%nat.
Proof.
  induction a as [|c a IH]; [reflexivity |].
  rewrite append_cons. cbn. now rewrite IH.
Qed.

Ltac value_ok :=
  rewrite ?parse_value_space;
  first [ apply parse_value_string
        | apply parse_value_null
        | apply parse_value_int; split; reflexivity ].

Ltac member :=
  rewrite ?parse_members_space;
  first [ erewrite member_comma by value_ok
        | erewrite member_end by value_ok ].

Lemma loads_entry (ts email : string) (u : User.t) :
  loads (dumps (entry_of ts email u)) = Some (entry_of ts email u).
Proof.
  destruct u as [id un fn ln]. unfold entry_of, loads.
  cbn [User.id User.username User.first_name User.last_name].
  destruct un as [un|], ln as [ln|]; unfold opt_str;
    cbn [dumps map join fst snd]; unfold quote; norm_app;
    cbn [String.length]; rewrite parse_value_object, string_length_app;
    change (String.length (escape "timestamp")) with 9%nat;
    cbn [Nat.add];
    do 6 member; reflexivity.
Qed.

Lemma escape_char_no_newline (c : ascii) :
  Text.all_chars no_newline (escape_char c) = true.
Proof. destruct c as [[] [] [] [] [] [] [] []]; reflexivity. Qed.

Lemma escape_no_newline (s : string) :
  Text.all_chars no_newline (escape s) = true.
Proof.
  induction s as [|c s IH]; [reflexivity |].
  cbn [escape]. now rewrite all_chars_app, escape_char_no_newline, IH.
Qed.

Lemma digit_no_newline (c : ascii) : is_digit c = true -> no_newline c = true.
Proof.
  destruct c as [[] [] [] [] [] [] [] []]; vm_compute; intros H;
    try reflexivity; discriminate H.
Qed.

Lemma str_of_int_no_newline (i : Z) :
  Text.all_chars no_newline (Text.str_of_int i) = true.
Proof.
  unfold Text.str_of_int.
  assert (H : forall u, Text.all_chars no_newline (NilZero.string_of_uint u) = true).
  { intros u. destruct u; try reflexivity;
      apply (all_chars_impl is_digit); auto using digit_no_newline;
      apply (string_of_uint_digits (_ u)). }
  destruct (Z.to_int i) as [u|u]; cbn [NilZero.string_of_int Text.all_chars].
  - apply H.
  - now rewrite H.
Qed.

Lemma dumps_entry_no_newline (ts email : string) (u : User.t) :
  Text.all_chars no_newline (dumps (entry_of ts email u)) = true.
Proof.
  destruct u as [id un fn ln]. unfold entry_of.
  cbn [User.id User.username User.first_name User.last_name].
  destruct un as [un|], ln as [ln|]; unfold opt_str;
    cbn [dumps map join fst snd]; unfold quote; norm_app;
    cbn [Text.all_chars];
    repeat (rewrite all_chars_app || rewrite escape_no_newline
            || rewrite str_of_int_no_newline || cbn [Text.all_chars andb]);
    reflexivity.
Qed.

Lemma rstrip_line (a : string) (c : ascii) :
  Text.isspace c = false ->
  Text.rstrip (a +:+ String c (String Text.LF EmptyString)) = a +:+ String c EmptyString.
Proof.
  intros Hc. induction a as [|x a IH].
  - rewrite !append_nil. cbn. now rewrite Hc.
  - rewrite !append_cons. cbn [Text.rstrip]. rewrite IH.
    destruct a; reflexivity.
Qed.

Lemma strip_object_line (d : list (string * json)) :
  Text.strip (dumps (JObj d) +:+ String Text.LF EmptyString) = dumps (JObj d).
Proof.
  cbn [dumps]. norm_app. unfold Text.strip.
  change (Text.lstrip (String "{" ?s)) with (String "{" s).
  cbn [Text.lstrip].
  replace (Text.isspace "{") with false by reflexivity.
  rewrite <- append_cons, rstrip_line; reflexivity.
Qed.

Lemma minijson_codec_ok (ts email : string) (u : User.t) :
  codec_ok dumps loads (entry_of ts email u).
Proof.
  split; [apply dumps_entry_no_newline |].
  split; [apply strip_object_line |].
  split; [discriminate |].
  apply loads_entry.
Qed.

(** With this codec the history reads back for all calls, with no
    condition on the entries left. *)
Corollary minijson_history (claims : gmap string Claim.t) (calls : list Call.t) :
  Forall (fun c => all_or_nothing (Call.write c) = true) calls ->
  returned (get_all_emails loads true
              (world_of (save_all dumps calls (World claims None)))) =
    inr (map entry_of_call (List.filter Call.ok calls)).
Proof.
  intros Hwhole.
  rewrite (read_after_saves dumps loads claims calls Hwhole); [reflexivity |].
  clear Hwhole. induction calls as [|c calls IH]; constructor; [| exact IH].
  intros _. apply minijson_codec_ok.
Qed.

End MiniJsonFacts.

(** * Further properties of the code *)

(** ** The validator and the text it is given *)

(** X1. [is_valid_email] accepts the strings of the shape
    local@domain.tld and those strings followed by one line feed, and
    nothing else. *)
Theorem validator_accepts_exactly (s : string) :
  is_valid_email s = true <->
  email_shape s \/
  exists s', s = s' +:+ String Text.LF EmptyString /\ email_shape s'.
Proof. exact (is_valid_email_spec s). Qed.

Lemma lower_char_not_upper (c : ascii) : is_upper (Text.lower_char c) = false.
Proof. destruct c as [[] [] [] [] [] [] [] []]; reflexivity. Qed.

Lemma lower_not_upper (s : string) :
  Text.all_chars (fun c => negb (is_upper c)) (Text.lower s) = true.
Proof.
  induction s as [|c s IH]; [reflexivity |].
  cbn [Text.lower Text.all_chars]. now rewrite lower_char_not_upper, IH.
Qed.

Lemma reaches_payout_posts dumps (user : User.t) (text : string) (env : Env.t)
    (w : world) :
  reaches_payout user text env w ->
  returned (handle_email dumps user text env w) = inr END /\
  posts (trace_of (handle_email dumps user text env w)) =
    [(CURRENCY, Text.lower (Text.strip text), AMOUNT)].
Proof.
  intros H. destruct (Env.payout env) as [result| |] eqn:Hout.
  - destruct result;
      try (rewrite (handle_email_not_a_dict dumps user text env w _ H Hout);
           [split; reflexivity | congruence]).
    destruct (py_eq_int (default JNull (dict_get d "status")) 200) eqn:Hst.
    + rewrite (handle_email_success dumps user text env w d H Hout Hst).
      unfold save_trace, success_ending.
      unfold Env.write_ok; destruct (Env.write env);
        destruct (shorten (default (JStr "N/A") (dict_get d "payout_user_hash")));
        split; reflexivity.
    + rewrite (handle_email_rejected dumps user text env w d H Hout Hst).
      split; reflexivity.
  - rewrite (handle_email_timed_out dumps user text env w H Hout). split; reflexivity.
  - rewrite (handle_email_failed dumps user text env w H Hout). split; reflexivity.
Qed.

(** X2. The handler validates the stripped, lower-cased text. It asks
    again, changing nothing, exactly when that text lacks the shape; a text
    with the shape ends the turn, and the address used from then on has no
    capital letter. *)
Theorem submitted_text_validation dumps (user : User.t) (text : string)
    (env : Env.t) (w : world) :
  let email := Text.lower (Text.strip text) in
  let r := handle_email dumps user text env w in
  (email_shape email ->
     returned r = inr END /\
     Text.all_chars (fun c => negb (is_upper c)) email = true) /\
  (~ email_shape email ->
     r = (inr WAITING_FOR_EMAIL, w, [ReplyText InvalidEmailFormat])).
Proof.
  intros email r. split.
  - intros Hshape. split; [| apply lower_not_upper].
    apply (handler_validates_shape text) in Hshape.
    destruct (attempt_cases user text env w) as [Hbad | [[_ (rec & Hrec & Hsoon)] | H]].
    + unfold email in Hshape. congruence.
    + unfold r. now rewrite (handle_email_throttled dumps user text env w rec).
    + now apply reaches_payout_posts.
  - intros Hnot. apply handle_email_invalid.
    destruct (is_valid_email (Text.lower (Text.strip text))) eqn:Hv; [| reflexivity].
    apply (handler_validates_shape text) in Hv. now destruct Hnot.
Qed.

Lemma submitted_text_validation_witness :
  returned (handle_email MiniJson.dumps alice "  Alice@Example.COM "
              (env_at 5000 (Responded sent)) empty_world) = inr END /\
  handle_email MiniJson.dumps alice "alice at example"
    (env_at 5000 (Responded sent)) empty_world =
    (inr WAITING_FOR_EMAIL, empty_world, [ReplyText InvalidEmailFormat]).
Proof.
  split.
  - apply (proj1 (submitted_text_validation MiniJson.dumps alice
                    "  Alice@Example.COM " (env_at 5000 (Responded sent))
                    empty_world)).
    apply (handler_validates_shape "  Alice@Example.COM "). reflexivity.
  - apply (proj2 (submitted_text_validation MiniJson.dumps alice
                    "alice at example" (env_at 5000 (Responded sent))
                    empty_world)).
    intros Hshape. apply (handler_validates_shape "alice at example") in Hshape.
    discriminate Hshape.
Defined.

(** X3. A run of the handler sends at most one request to FaucetPay: one,
    for the fixed currency and amount and to the validated address, when
    the attempt gets past the validation and the 60 second check, and none
    otherwise, in which case nothing changes either. *)
Theorem one_request_per_attempt dumps (user : User.t) (text : string)
    (env : Env.t) (w : world) :
  let r := handle_email dumps user text env w in
  (reaches_payout user text env w ->
     posts (trace_of r) = [(CURRENCY, Text.lower (Text.strip text), AMOUNT)]) /\
  (~ reaches_payout user text env w ->
     posts (trace_of r) = [] /\ world_of r = w).
Proof.
  intros r. split.
  - intros H. now apply reaches_payout_posts.
  - intros Hnot.
    destruct (attempt_cases user text env w) as [Hbad | [[Hok (rec & Hrec & Hsoon)] | H]].
    + unfold r. now rewrite handle_email_invalid.
    + unfold r. now rewrite (handle_email_throttled dumps user text env w rec).
    + now destruct Hnot.
Qed.

Lemma one_request_per_attempt_witness :
  posts (trace_of (handle_email MiniJson.dumps alice "a@b.co"
                     (env_at 5000 TimedOut) empty_world)) =
    [("DGB", "a@b.co", "0.00000001")] /\
  posts (trace_of (handle_email MiniJson.dumps alice "a@b.co"
                     (env_at 1030 (Responded sent)) claimed_world)) = [].
Proof.
  split.
  - apply (proj1 (one_request_per_attempt MiniJson.dumps alice "a@b.co"
                    (env_at 5000 TimedOut) empty_world)).
    split; [reflexivity |]. intros record Hrec. vm_compute in Hrec. discriminate Hrec.
  - apply (proj2 (one_request_per_attempt MiniJson.dumps alice "a@b.co"
                    (env_at 1030 (Responded sent)) claimed_world)).
    intros [_ Hopen].
    specialize (Hopen (Claim.Build 1000 "a@b.co") eq_refl).
    vm_compute in Hopen. now apply Hopen.
Defined.

(** ** One claim after another *)

Lemma record_after_success dumps (user : User.t) (text : string) (env : Env.t)
    (w : world) :
  reaches_payout user text env w ->
  payout_success (Env.payout env) = true ->
  world_of (handle_email dumps user text env w) =
    world_after_success dumps user text env w.
Proof.
  intros H Hs. destruct (payout_success_inv _ Hs) as (d & Hout & Hst).
  now rewrite (handle_email_success dumps user text env w d H Hout Hst).
Qed.

Lemma lookup_after_success dumps (user : User.t) (text : string) (env : Env.t)
    (w : world) :
  user_claims (world_after_success dumps user text env w) !! user_key user =
    Some (Claim.Build (Env.time_at_record env) (Text.lower (Text.strip text))).
Proof. unfold world_after_success. cbn [user_claims]. apply lookup_insert_eq. Qed.



Lemma status_command_with_record (user : User.t) (now : Q) (w : world)
    (record : Claim.t) :
  user_claims w !! user_key user = Some record ->
  let time_left := (86400 - (now - Claim.last_claim record))%Q in
  status_command user now w =
    (inr tt, w,
     [ReplyText (if py_lt (now - Claim.last_claim record) 86400
                 then StatusCooldown (Claim.email record)
                        (hours_of time_left) (minutes_of time_left)
                 else ReadyToClaim)]).
Proof.
  intros Hrec time_left. unfold status_command. run. rewrite Hrec.
  destruct (py_lt (now - Claim.last_claim record) 86400); reflexivity.
Qed.

Lemma hours_at_most_24 (time_left : Q) :
  (0 <= time_left)%Q -> (time_left <= 86400)%Q ->
  (0 <= hours_of time_left <= 24)%Z.
Proof.
  intros Hlo Hhi.
  destruct (hours_minutes_spec time_left Hlo) as (Hh & Hm & Hle & _).
  split; [exact Hh |].
  assert (H : (inject_Z (3600 * hours_of time_left + 60 * minutes_of time_left)
               <= inject_Z 86400)%Q) by (change (inject_Z 86400) with 86400%Q; lra).
  rewrite <- Zle_Qle in H. lia.
Qed.

(** X5. After a paid claim stored at time [t] the cooldown holds for the
    24 hours that follow: asked at a time less than 86400 seconds after
    [t], /start refuses with the hours and minutes that remain (never more
    than 24 hours when the clock has not gone back) and /status shows the
    same remainder with the address that was paid; from 86400 seconds on,
    /start prompts again and /status says ready. *)
Theorem cooldown_after_success dumps (user : User.t) (text : string)
    (env : Env.t) (w : world) (now : Q) :
  reaches_payout user text env w ->
  payout_success (Env.payout env) = true ->
  let w1 := world_of (handle_email dumps user text env w) in
  let remaining := (86400 - (now - Env.time_at_record env))%Q in
  ((now - Env.time_at_record env < 86400)%Q ->
     start_command user now w1 =
       (inr END, w1,
        [ReplyText (CooldownActive (hours_of remaining) (minutes_of remaining))]) /\
     status_command user now w1 =
       (inr tt, w1,
        [ReplyText (StatusCooldown (Text.lower (Text.strip text))
                      (hours_of remaining) (minutes_of remaining))]) /\
     ((Env.time_at_record env <= now)%Q ->
        (0 <= hours_of remaining <= 24)%Z /\ (0 <= minutes_of remaining < 60)%Z)) /\
  ((86400 <= now - Env.time_at_record env)%Q ->
     start_command user now w1 = prompts user w1 /\
     status_command user now w1 = (inr tt, w1, [ReplyText ReadyToClaim])).
Proof.
  intros H Hs w1 remaining.
  assert (Hrec : user_claims w1 !! user_key user =
            Some (Claim.Build (Env.time_at_record env) (Text.lower (Text.strip text)))).
  { unfold w1. rewrite (record_after_success dumps user text env w H Hs).
    apply lookup_after_success. }
  pose proof (status_command_with_record user now w1 _ Hrec) as Hstatus.
  cbv zeta in Hstatus. cbn [Claim.last_claim Claim.email] in Hstatus.
  split.
  - intros Hlt. split; [| split].
    + apply (start_command_waiting user now w1 _ Hrec). exact Hlt.
    + apply py_lt_true in Hlt. rewrite Hstatus, Hlt. reflexivity.
    + intros Hclock. split.
      * apply hours_at_most_24; unfold remaining; lra.
      * apply hours_minutes_spec. unfold remaining. lra.
  - intros Hle. split.
    + apply (start_command_ready user now w1 _ Hrec). exact Hle.
    + apply py_lt_false in Hle. rewrite Hstatus, Hle. reflexivity.
Qed.

Lemma cooldown_after_success_witness :
  let w1 := world_of (handle_email MiniJson.dumps alice "A@b.co"
                        (env_at 5000 (Responded sent)) empty_world) in
  start_command alice 8601 w1 = (inr END, w1, [ReplyText (CooldownActive 23 0)]) /\
  status_command alice 8601 w1 =
    (inr tt, w1, [ReplyText (StatusCooldown "a@b.co" 23 0)]) /\
  start_command alice 91401 w1 = prompts alice w1.
Proof.
  assert (Hreach : reaches_payout alice "A@b.co"
                     (env_at 5000 (Responded sent)) empty_world).
  { split; [reflexivity |]. intros record Hrec. vm_compute in Hrec. discriminate Hrec. }
  pose proof (cooldown_after_success MiniJson.dumps alice "A@b.co"
                (env_at 5000 (Responded sent)) empty_world 8601 Hreach eq_refl)
    as [Hwait _].
  pose proof (cooldown_after_success MiniJson.dumps alice "A@b.co"
                (env_at 5000 (Responded sent)) empty_world 91401 Hreach eq_refl)
    as [_ Hready].
  cbv zeta in Hwait, Hready.
  destruct Hwait as (Hstart & Hstatus & _); [reflexivity |].
  destruct Hready as (Hprompt & _); [vm_compute; discriminate |].
  cbv zeta. split; [exact Hstart | split; [exact Hstatus | exact Hprompt]].
Defined.

(** ** One record per user *)

Lemma str_of_int_inj (i j : Z) : Text.str_of_int i = Text.str_of_int j -> i = j.
Proof.
  unfold Text.str_of_int. intros Heq.
  assert (Hparse : forall k,
            NilZero.int_of_string (NilZero.string_of_int (Z.to_int k)) =
              Some (Z.to_int k)).
  { intros k. pose proof (MiniJsonFacts.to_int_normal k) as Hn.
    apply NilZero.isi; intros Hk; rewrite Hk in Hn; discriminate Hn. }
  pose proof (Hparse i) as Hi. rewrite Heq, Hparse in Hi.
  injection Hi as Hi. symmetry. now apply DecimalZ.to_int_inj.
Qed.

Lemma start_command_by_record (user : User.t) (now : Q) (w w' : world) :
  user_claims w' !! user_key user = user_claims w !! user_key user ->
  returned (start_command user now w') = returned (start_command user now w) /\
  trace_of (start_command user now w') = trace_of (start_command user now w).
Proof.
  intros Hsame.
  destruct (user_claims w !! user_key user) as [record|] eqn:Hrec.
  - rewrite (start_command_with_record user now w record Hrec),
            (start_command_with_record user now w' record Hsame).
    cbv zeta. destruct (py_lt 0 _); split; reflexivity.
  - rewrite (start_command_without_record user now w Hrec),
            (start_command_without_record user now w' Hsame).
    split; reflexivity.
Qed.

(** X6. The records are kept per user id: whatever one user submits, and
    however it ends, the record of a user with another id stays as it
    was, so /start answers that user as before. *)
Theorem other_users_untouched dumps (user other : User.t) (text : string)
    (env : Env.t) (w : world) (now : Q) :
  User.id other <> User.id user ->
  let w1 := world_of (handle_email dumps user text env w) in
  user_claims w1 !! user_key other = user_claims w !! user_key other /\
  returned (start_command other now w1) = returned (start_command other now w) /\
  trace_of (start_command other now w1) = trace_of (start_command other now w).
Proof.
  intros Hid w1.
  assert (Hsame : user_claims w1 !! user_key other = user_claims w !! user_key other).
  { unfold w1.
    destruct (attempt_cases user text env w) as [Hbad | [[Hok (rec & Hrec & Hsoon)] | H]].
    - now rewrite handle_email_invalid.
    - now rewrite (handle_email_throttled dumps user text env w rec).
    - destruct (payout_success (Env.payout env)) eqn:Hs.
      + rewrite (record_after_success dumps user text env w H Hs).
        unfold world_after_success. cbn [user_claims].
        apply lookup_insert_ne. unfold user_key. intros Hkey.
        apply str_of_int_inj in Hkey. congruence.
      + destruct (handle_email_frame dumps user text env w) as [Hw _].
        * intros [_ Hsuccess]. congruence.
        * now rewrite Hw. }
  split; [exact Hsame |]. now apply start_command_by_record.
Qed.

Lemma other_users_untouched_witness :
  let w1 := world_of (handle_email MiniJson.dumps bob "bob@b.co"
                        (env_at 5000 (Responded sent)) claimed_world) in
  user_claims w1 !! user_key alice = Some (Claim.Build 1000 "a@b.co") /\
  user_claims w1 !! user_key bob = Some (Claim.Build 5001 "bob@b.co").
Proof.
  cbv zeta. split.
  - rewrite (proj1 (other_users_untouched MiniJson.dumps bob alice "bob@b.co"
                      (env_at 5000 (Responded sent)) claimed_world 0
                      ltac:(discriminate))).
    reflexivity.
  - vm_compute. reflexivity.
Defined.

(** ** What every sequence of updates keeps *)

Lemma bind_inr {A B} (m : M A) (f : A -> M B) (w : world) (a : A) :
  returned (m w) = inr a ->
  returned ((m ≫= f) w) = returned (f a (world_of (m w))) /\
  world_of ((m ≫= f) w) = world_of (f a (world_of (m w))) /\
  trace_of ((m ≫= f) w) = trace_of (m w) ++ trace_of (f a (world_of (m w))).
Proof.
  unfold returned, world_of, trace_of. cbv [mbind M_bind bind].
  destruct (m w) as [[res w1] t1]. cbn. intros ->.
  destruct (f a w1) as [[res2 w2] t2]. cbn. auto.
Qed.

Lemma start_command_world (user : User.t) (now : Q) (w : world) :
  world_of (start_command user now w) = w /\
  exists state, returned (start_command user now w) = inr state.
Proof.
  destruct (user_claims w !! user_key user) as [record|] eqn:Hrec.
  - rewrite (start_command_with_record user now w record Hrec). cbv zeta.
    destruct (py_lt 0 _); split; eauto.
  - rewrite (start_command_without_record user now w Hrec). split; eauto.
Qed.

Lemma status_command_world (user : User.t) (now : Q) (w : world) :
  world_of (status_command user now w) = w /\
  returned (status_command user now w) = inr tt.
Proof.
  destruct (user_claims w !! user_key user) as [record|] eqn:Hrec.
  - now rewrite (status_command_with_record user now w record Hrec).
  - unfold status_command. run. now rewrite Hrec.
Qed.

Lemma handle_email_world dumps (user : User.t) (text : string) (env : Env.t)
    (w : world) :
  (exists state, returned (handle_email dumps user text env w) = inr state) /\
  (world_of (handle_email dumps user text env w) = w \/
   reaches_payout user text env w /\ payout_success (Env.payout env) = true /\
   world_of (handle_email dumps user text env w) =
     world_after_success dumps user text env w).
Proof.
  destruct (attempt_cases user text env w) as [Hbad | [[Hok (rec & Hrec & Hsoon)] | H]].
  - rewrite handle_email_invalid by exact Hbad. split; eauto.
  - rewrite (handle_email_throttled dumps user text env w rec) by assumption.
    split; eauto.
  - split; [exists END; now apply reaches_payout_posts |].
    destruct (payout_success (Env.payout env)) eqn:Hs.
    + right. split; [exact H | split; [reflexivity |]].
      now apply record_after_success.
    + left. apply handle_email_frame. intros [_ Hsuccess]. congruence.
Qed.

(** One update either leaves the world alone or is a paid claim. *)
Lemma handle_step dumps (u : update) (w : world) :
  returned (handle dumps u w) = inr tt /\
  (world_of (handle dumps u w) = w \/
   exists user text env,
     u = OnEmail user text env /\
     reaches_payout user text env w /\
     payout_success (Env.payout env) = true /\
     world_of (handle dumps u w) = world_after_success dumps user text env w).
Proof.
  destruct u as [user now | user text env | user now]; cbn [handle].
  - destruct (start_command_world user now w) as (Hw & state & Hret).
    destruct (bind_inr (start_command user now) (fun _ => mret tt) w state Hret)
      as (-> & -> & _).
    split; [reflexivity | now left].
  - destruct (handle_email_world dumps user text env w) as ((state & Hret) & Hw).
    destruct (bind_inr (handle_email dumps user text env) (fun _ => mret tt) w state Hret)
      as (-> & -> & _).
    split; [reflexivity |].
    destruct Hw as [Hw | (H & Hs & Hw)]; [now left | right].
    exists user, text, env. auto.
  - destruct (status_command_world user now w) as (Hw & Hret).
    split; [exact Hret | now left].
Qed.

Lemma run_cons dumps (u : update) (rest : list update) (w : world) :
  returned (run dumps (u :: rest) w) = returned (run dumps rest (world_of (handle dumps u w))) /\
  world_of (run dumps (u :: rest) w) = world_of (run dumps rest (world_of (handle dumps u w))).
Proof.
  destruct (handle_step dumps u w) as (Hret & _).
  destruct (bind_inr (handle dumps u) (fun _ => run dumps rest) w tt Hret)
    as (H1 & H2 & _).
  split; assumption.
Qed.

(** An invariant of the paid claim is an invariant of every sequence of
    updates, and no sequence raises. *)
Lemma run_invariant dumps (P : world -> Prop) :
  (forall user text env w,
     P w -> reaches_payout user text env w ->
     payout_success (Env.payout env) = true ->
     P (world_after_success dumps user text env w)) ->
  forall updates w,
    P w ->
    P (world_of (run dumps updates w)) /\ returned (run dumps updates w) = inr tt.
Proof.
  intros Hstep updates. induction updates as [|u rest IH]; intros w Hw.
  - split; [exact Hw | reflexivity].
  - destruct (run_cons dumps u rest w) as (-> & ->). apply IH.
    destruct (handle_step dumps u w) as (_ & [-> | (user & text & env & _ & H & Hs & ->)]).
    + exact Hw.
    + now apply Hstep.
Qed.

(** X7. Only validated addresses are ever stored: if every record holds
    an address of the shape local@domain.tld without capital letters,
    then so it is after any sequence of /start, /status and submitted
    texts, whatever FaucetPay and the file system answer; and no such
    sequence raises. *)
Theorem stored_addresses_valid dumps (updates : list update) (w : world) :
  (forall key record, user_claims w !! key = Some record ->
     email_shape (Claim.email record) /\
     Text.all_chars (fun c => negb (is_upper c)) (Claim.email record) = true) ->
  (forall key record,
     user_claims (world_of (run dumps updates w)) !! key = Some record ->
     email_shape (Claim.email record) /\
     Text.all_chars (fun c => negb (is_upper c)) (Claim.email record) = true) /\
  returned (run dumps updates w) = inr tt.
Proof.
  apply (run_invariant dumps
           (fun w => forall key record, user_claims w !! key = Some record ->
              email_shape (Claim.email record) /\
              Text.all_chars (fun c => negb (is_upper c)) (Claim.email record) = true)).
  intros user text env w0 Hw0 H _ key record.
  unfold world_after_success. cbn [user_claims].
  destruct (decide (user_key user = key)) as [<- | Hne].
  - rewrite lookup_insert_eq. intros [= <-]. cbn [Claim.email]. split.
    + apply (handler_validates_shape text). apply H.
    + apply lower_not_upper.
  - rewrite lookup_insert_ne by exact Hne. apply Hw0.
Qed.

Lemma stored_addresses_valid_witness :
  email_shape "a@b.co" /\
  returned (run MiniJson.dumps sample_updates empty_world) = inr tt.
Proof.
  destruct (stored_addresses_valid MiniJson.dumps sample_updates empty_world)
    as [Hall Hret].
  - intros key record Hrec. unfold empty_world in Hrec.
    cbn [user_claims] in Hrec. rewrite lookup_empty in Hrec. discriminate Hrec.
  - split; [| exact Hret].
    apply (Hall "42" (Claim.Build 5001 "a@b.co")). vm_compute. reflexivity.
Defined.

(** X8. The handlers only ever add to the history file: after any
    sequence of updates the file holds what it held, followed by what the
    paid claims wrote, and a file that existed still exists. *)
Theorem history_only_grows dumps (updates : list update) (w : world) :
  let w1 := world_of (run dumps updates w) in
  (exists added,
     default EmptyString (email_file w1) =
       default EmptyString (email_file w) +:+ added) /\
  (email_file w <> None -> email_file w1 <> None).
Proof.
  intros w1.
  assert (H : (exists added,
                 default EmptyString (email_file w1) =
                   default EmptyString (email_file w) +:+ added) /\
              (email_file w <> None -> email_file w1 <> None));
    [| exact H].
  unfold w1.
  apply (run_invariant dumps
           (fun w' => (exists added,
                         default EmptyString (email_file w') =
                           default EmptyString (email_file w) +:+ added) /\
                      (email_file w <> None -> email_file w' <> None))).
  - intros user text env w0 ((added & Hadd) & Hkeep) _ _.
    unfold world_after_success, file_after_save. cbn [email_file].
    destruct (Env.write env) as [| |n].
    + split; [| discriminate].
      exists (added +:+ written_line dumps user text env).
      cbn [default]. now rewrite Hadd, append_assoc.
    + split; [now exists added | exact Hkeep].
    + split; [| discriminate].
      exists (added +:+ Text.take n (written_line dumps user text env)).
      cbn [default]. now rewrite Hadd, append_assoc.
  - split; [| tauto]. exists EmptyString. now rewrite append_empty_r.
Qed.



Lemma history_only_grows_witness :
  email_file (world_of (run MiniJson.dumps sample_updates one_line_world)) <> None.
Proof.
  apply (proj2 (history_only_grows MiniJson.dumps sample_updates one_line_world)).
  discriminate.
Defined.

(** ** The storage, call by call *)

(** X10. [save_email] reports success however the write ends and never
    touches the dictionary. When the write goes through, the file has the
    old text followed by the one line of the entry. When the file cannot
    be opened it is as it was, and when the write is cut off the part of
    the line that got through is at its end; in both cases the error and
    the backup line are logged and the caller is still told [True]. *)
Theorem save_email_outcomes dumps (outcome : write_outcome)
    (timestamp email : string) (user_data : User.t) (w : world) :
  let r := save_email dumps outcome timestamp email user_data w in
  let line := dumps (entry_of timestamp email user_data) +:+ String Text.LF EmptyString in
  let failure := [LogError (ErrorSavingEmail OSError);
                  LogInfo (BackupEmailLog email (User.id user_data))] in
  returned r = inr true /\
  user_claims (world_of r) = user_claims w /\
  (outcome = Written ->
     email_file (world_of r) = Some (default EmptyString (email_file w) +:+ line) /\
     trace_of r = [FileWrite line; LogInfo (EmailSaved email (User.id user_data))]) /\
  (outcome = NotOpened -> world_of r = w /\ trace_of r = failure) /\
  (forall n, outcome = Interrupted n ->
     email_file (world_of r) =
       Some (default EmptyString (email_file w) +:+ Text.take n line) /\
     trace_of r = failure).
Proof.
  unfold save_email, save_to_alternative, append_file.
  destruct outcome; run; cbn; repeat split; congruence.
Qed.

Lemma save_email_outcomes_witness :
  let cut := save_email MiniJson.dumps (Interrupted 10) "2024-01-01 00:00:00"
               "a@b.co" alice one_line_world in
  let refused := save_email MiniJson.dumps NotOpened "2024-01-01 00:00:00"
                   "a@b.co" alice one_line_world in
  returned cut = inr true /\
  email_file (world_of cut) = Some (one_line_text +:+ Text.take 10 alice_line) /\
  world_of refused = one_line_world.
Proof.
  pose proof (save_email_outcomes MiniJson.dumps (Interrupted 10)
                "2024-01-01 00:00:00" "a@b.co" alice one_line_world)
    as (Hret & _ & _ & _ & Hcut).
  pose proof (save_email_outcomes MiniJson.dumps NotOpened
                "2024-01-01 00:00:00" "a@b.co" alice one_line_world)
    as (_ & _ & _ & Hrefused & _).
  destruct (Hcut 10%nat eq_refl) as [Hfile _].
  destruct (Hrefused eq_refl) as [Hw _].
  cbv zeta. split; [exact Hret | split; [| exact Hw]].
  rewrite Hfile. reflexivity.
Defined.

(** X11. Appending keeps what is there: when the file is made of the
    lines of earlier entries, then after any further calls of
    [save_email], each of which goes through or fails before a character
    is written, [get_all_emails] returns the earlier entries followed by
    the entries of the calls that went through, in order. *)
Theorem history_extends dumps loads (earlier : list json) (calls : list Call.t)
    (w : world) :
  email_file w = Some (lines_text (map dumps earlier)) ->
  Forall (codec_ok dumps loads) earlier ->
  Forall (fun c => all_or_nothing (Call.write c) = true) calls ->
  Forall (fun c => Call.ok c = true -> codec_ok dumps loads (entry_of_call c)) calls ->
  returned (get_all_emails loads true w) = inr earlier /\
  returned (get_all_emails loads true (world_of (save_all dumps calls w))) =
    inr (earlier ++ map entry_of_call (List.filter Call.ok calls)).
Proof.
  intros Hfile Hearlier Hwhole Hcalls.
  assert (Htext : default EmptyString (email_file w) = lines_text (map dumps earlier))
    by now rewrite Hfile.
  assert (Hnone : email_file w = None -> earlier = []) by (rewrite Hfile; discriminate).
  split.
  - now rewrite (get_all_emails_entries dumps loads w earlier Htext Hnone Hearlier).
  - destruct (save_all_file dumps calls w earlier Hwhole Htext Hnone)
      as (Htext' & Hnone' & _ & _).
    cbv zeta in Htext', Hnone'.
    rewrite (get_all_emails_entries dumps loads _ _ Htext' Hnone'); [reflexivity |].
    apply Forall_app. split; [exact Hearlier |].
    now apply codec_of_written.
Qed.

Lemma history_extends_witness :
  returned (get_all_emails MiniJson.loads true
              (world_of (save_all MiniJson.dumps three_calls one_line_world))) =
    inr [ entry_of "2024-01-01 00:00:00" "a@b.co" alice;
          entry_of "2024-01-01 00:00:00" "a@b.co" alice;
          entry_of "2024-01-01 00:00:02" "b@b.co" bob ].
Proof.
  apply (history_extends MiniJson.dumps MiniJson.loads
           [entry_of "2024-01-01 00:00:00" "a@b.co" alice] three_calls one_line_world).
  - reflexivity.
  - constructor; [apply MiniJsonFacts.minijson_codec_ok | constructor].
  - repeat constructor.
  - repeat (constructor; [intros _; apply MiniJsonFacts.minijson_codec_ok |]).
    constructor.
Defined.

(** X12. [get_all_emails] never raises and never changes anything; when
    the file cannot be read it returns the empty list and logs the
    error, as it does for a line that does not load. *)
Theorem get_all_emails_read_only loads (ok : bool) (w : world) :
  world_of (get_all_emails loads ok w) = w /\
  (exists emails, returned (get_all_emails loads ok w) = inr emails) /\
  (ok = false -> email_file w <> None ->
     returned (get_all_emails loads ok w) = inr [] /\
     trace_of (get_all_emails loads ok w) = [LogError (ErrorReadingEmails OSError)]).
Proof.
  unfold get_all_emails. run.
  destruct (email_file w) as [content|] eqn:Hfile.
  - destruct ok; run.
    + destruct (load_lines loads (Text.readlines content) []);
        (split; [reflexivity | split; [eauto | discriminate]]).
    + split; [reflexivity | split; [eauto |]]. intros _ _. split; reflexivity.
  - split; [reflexivity | split; [eauto |]]. intros _ Hsome. now destruct Hsome.
Qed.

Lemma get_all_emails_read_only_witness :
  returned (get_all_emails MiniJson.loads false one_line_world) = inr [].
Proof.
  apply (proj2 (proj2 (get_all_emails_read_only MiniJson.loads false one_line_world)));
    [reflexivity | discriminate].
Defined.

(** X13. [clear_emails] removes the file and nothing else. Without a
    file it reports [True] and does nothing; with a file it deletes it and
    reports [True], or, when the removal fails, reports [False] and leaves
    everything as it was. The dictionary is never touched, so the
    cooldowns outlive the history. *)
Theorem clear_emails_outcomes (ok : bool) (w : world) :
  let r := clear_emails ok w in
  user_claims (world_of r) = user_claims w /\
  (email_file w = None -> r = (inr true, w, [])) /\
  (email_file w <> None -> ok = true ->
     returned r = inr true /\ email_file (world_of r) = None /\
     trace_of r = [FileRemove]) /\
  (email_file w <> None -> ok = false -> r = (inr false, w, [])).
Proof.
  unfold clear_emails. run.
  destruct w as [claims [content|]]; cbn [email_file user_claims].
  - destruct ok; run; cbn; repeat split; congruence.
  - repeat split; congruence.
Qed.

Lemma clear_emails_outcomes_witness :
  email_file (world_of (clear_emails true one_line_world)) = None /\
  clear_emails false one_line_world = (inr false, one_line_world, []).
Proof.
  pose proof (clear_emails_outcomes true one_line_world) as (_ & _ & Hok & _).
  pose proof (clear_emails_outcomes false one_line_world) as (_ & _ & _ & Hfail).
  split.
  - apply Hok; [discriminate | reflexivity].
  - apply Hfail; [discriminate | reflexivity].
Defined.

(** X14. The history starts again after a clear: once [clear_emails] has
    reported success, what [get_all_emails] returns after further calls
    of [save_email], each of which goes through or fails before a
    character is written, is the entries of the calls that went through
    alone, whatever the file held before. *)
Theorem history_restarts_after_clear dumps loads (ok : bool) (w : world)
    (calls : list Call.t) :
  returned (clear_emails ok w) = inr true ->
  Forall (fun c => all_or_nothing (Call.write c) = true) calls ->
  Forall (fun c => Call.ok c = true -> codec_ok dumps loads (entry_of_call c)) calls ->
  returned (get_all_emails loads true
              (world_of (save_all dumps calls (world_of (clear_emails ok w))))) =
    inr (map entry_of_call (List.filter Call.ok calls)).
Proof.
  intros Hcleared Hwhole Hcalls.
  pose proof (clear_emails_file ok w Hcleared) as Hfile.
  destruct (world_of (clear_emails ok w)) as [claims file]. cbn in Hfile. subst file.
  now rewrite (read_after_saves dumps loads claims calls Hwhole Hcalls).
Qed.

Lemma history_restarts_after_clear_witness :
  returned (get_all_emails MiniJson.loads true
              (world_of (save_all MiniJson.dumps three_calls
                           (world_of (clear_emails true damaged_world))))) =
    inr [ entry_of "2024-01-01 00:00:00" "a@b.co" alice;
          entry_of "2024-01-01 00:00:02" "b@b.co" bob ].
Proof.
  apply (history_restarts_after_clear MiniJson.dumps MiniJson.loads true
           damaged_world three_calls).
  - reflexivity.
  - repeat constructor.
  - repeat (constructor; [intros _; apply MiniJsonFacts.minijson_codec_ok |]).
    constructor.
Defined.

(** ** The statistics *)

Lemma get_all_emails_result loads (ok : bool) (w : world) :
  exists emails trace, get_all_emails loads ok w = (inr emails, w, trace).
Proof.
  unfold get_all_emails. run.
  destruct (email_file w) as [content|]; [| eauto].
  destruct ok; run; [| eauto].
  destruct (load_lines loads (Text.readlines content) []); eauto.
Qed.

Lemma web_stats_run loads (ok : bool) (now_iso : string) (w : world)
    (emails : list json) (trace : list event) :
  get_all_emails loads ok w = (inr emails, w, trace) ->
  web_stats loads ok now_iso w =
    match user_id_set emails [] with
    | inr ids =>
        (inr (Stats.Build (List.length emails) (List.length ids)
                          (size (user_claims w)) now_iso), w, trace)
    | inl x => (inl x, w, trace)
    end.
Proof.
  intros Hread. unfold web_stats. run. rewrite Hread.
  destruct (user_id_set emails []); cbn; now rewrite ?app_nil_r.
Qed.

Lemma user_id_set_length (emails seen ids : list json) :
  user_id_set emails seen = inr ids ->
  (List.length ids <= List.length seen + List.length emails)%nat.
Proof.
  revert seen. induction emails as [|e emails IH]; intros seen; cbn [user_id_set].
  - intros [= <-]. lia.
  - destruct (py_get e "user_id" JNull) as [x|v]; [discriminate |].
    destruct (hashable v); [| discriminate].
    intros H. apply IH in H. cbn [List.length].
    destruct (existsb (py_eq v) seen); [lia |].
    rewrite length_app in H. cbn in H. lia.
Qed.

Lemma user_id_set_not_object (emails seen : list json) :
  (exists e, In e emails /\ forall d, e <> JObj d) ->
  exists x, user_id_set emails seen = inl x.
Proof.
  intros (e & Hin & Hnot). revert seen.
  induction emails as [|e' emails IH]; intros seen; [destruct Hin |].
  cbn [user_id_set]. destruct Hin as [-> | Hin].
  - destruct e; try (cbn; eauto). now destruct (Hnot d).
  - destruct (py_get e' "user_id" JNull) as [x|v]; [eauto |].
    destruct (hashable v); [| eauto]. now apply IH.
Qed.

(** X15. [GET /stats] changes nothing and, when it answers, never counts
    more users than claims; it counts the users with a record as active
    sessions and answers zero claims when there is no file. A line of the
    history that is valid JSON but not an object, which [get_all_emails]
    lets through, makes the route fail with an exception. *)
Theorem web_stats_bounds loads (ok : bool) (now_iso : string) (w : world) :
  world_of (web_stats loads ok now_iso w) = w /\
  (forall stats, returned (web_stats loads ok now_iso w) = inr stats ->
     (Stats.unique_users stats <= Stats.total_claims stats)%nat /\
     Stats.active_sessions stats = size (user_claims w)) /\
  (email_file w = None ->
     returned (web_stats loads ok now_iso w) =
       inr (Stats.Build 0 0 (size (user_claims w)) now_iso)) /\
  (forall emails e,
     returned (get_all_emails loads ok w) = inr emails ->
     In e emails -> (forall d, e <> JObj d) ->
     exists x, returned (web_stats loads ok now_iso w) = inl x).
Proof.
  destruct (get_all_emails_result loads ok w) as (emails & trace & Hread).
  rewrite (web_stats_run loads ok now_iso w emails trace Hread).
  split; [| split; [| split]].
  - now destruct (user_id_set emails []).
  - intros stats. destruct (user_id_set emails []) as [x|ids] eqn:Hids; [discriminate |].
    intros [= <-]. cbn. split; [| reflexivity].
    apply user_id_set_length in Hids. cbn in Hids. lia.
  - intros Hnone. rewrite (get_all_emails_no_file loads ok w Hnone) in Hread.
    injection Hread as <- <-. reflexivity.
  - intros emails' e Hret Hin Hnot. rewrite Hread in Hret. injection Hret as <-.
    destruct (user_id_set_not_object emails [] (ex_intro _ e (conj Hin Hnot))) as (x & ->).
    eauto.
Qed.

Lemma web_stats_bounds_witness :
  returned (web_stats MiniJson.loads true "2024-01-01T00:00:00" empty_world) =
    inr (Stats.Build 0 0 0 "2024-01-01T00:00:00") /\
  exists x, returned (web_stats MiniJson.loads true "2024-01-01T00:00:00"
                        number_line_world) = inl x.
Proof.
  split.
  - apply (proj1 (proj2 (proj2 (web_stats_bounds MiniJson.loads true
                                  "2024-01-01T00:00:00" empty_world)))).
    reflexivity.
  - apply (proj2 (proj2 (proj2 (web_stats_bounds MiniJson.loads true
                                  "2024-01-01T00:00:00" number_line_world)))
             [entry_of "2024-01-01 00:00:00" "a@b.co" alice; JInt 5] (JInt 5)).
    + vm_compute. reflexivity.
    + right. left. reflexivity.
    + discriminate.
Defined.

Lemma py_eq_int_values (a b : Z) : py_eq (JInt a) (JInt b) = true <-> a = b.
Proof.
  cbn. rewrite Qeq_bool_iff. unfold Qeq. cbn. rewrite !Z.mul_1_r. tauto.
Qed.

Lemma seen_id (z : Z) (zs : list Z) :
  existsb (py_eq (JInt z)) (map JInt zs) = true <-> In z zs.
Proof.
  induction zs as [|a zs IH]; cbn [map existsb].
  - split; [discriminate | intros []].
  - rewrite orb_true_iff, IH, py_eq_int_values. cbn. split; intros [H | H]; auto.
Qed.

(** On the entries the bot writes, the set holds each user id once. *)
Lemma user_id_set_entries (cs : list Call.t) (zs : list Z) :
  NoDup zs ->
  exists zs',
    user_id_set (map entry_of_call cs) (map JInt zs) = inr (map JInt zs') /\
    NoDup zs' /\
    forall z, In z zs' <-> In z zs \/ In z (map (fun c => User.id (Call.user_data c)) cs).
Proof.
  revert zs. induction cs as [|c cs IH]; intros zs Hnd.
  - exists zs. cbn. split; [reflexivity | split; [exact Hnd | tauto]].
  - cbn [map user_id_set].
    change (py_get (entry_of_call c) "user_id" JNull)
      with (@inr exn json (JInt (User.id (Call.user_data c)))).
    cbn [hashable].
    destruct (existsb (py_eq (JInt (User.id (Call.user_data c)))) (map JInt zs)) eqn:Hseen.
    + apply seen_id in Hseen.
      destruct (IH zs Hnd) as (zs' & Hrun & Hnd' & Hin).
      exists zs'. split; [exact Hrun | split; [exact Hnd' |]].
      intros z. rewrite Hin. cbn. intuition congruence.
    + assert (Hnew : ~ In (User.id (Call.user_data c)) zs).
      { intros Hin. apply seen_id in Hin. congruence. }
      destruct (IH (zs ++ [User.id (Call.user_data c)])) as (zs' & Hrun & Hnd' & Hin).
      * apply NoDup_app. split; [exact Hnd | split].
        -- intros x Hx Hx'. apply list_elem_of_In in Hx, Hx'.
           destruct Hx' as [<- | []]. contradiction.
        -- repeat constructor. intros Hx. apply list_elem_of_In in Hx. destruct Hx.
      * exists zs'. rewrite List.map_app in Hrun. cbn [map] in Hrun.
        split; [exact Hrun | split; [exact Hnd' |]].
        intros z. rewrite Hin, in_app_iff. cbn. tauto.
Qed.

(** X16. On a history the bot wrote, [GET /stats] counts right: after any
    calls of [save_email] on an empty store, each of which goes through or
    fails before a character is written, the total is the number of calls
    that went through and the unique users are the distinct user ids
    among them. *)
Theorem web_stats_counts dumps loads (claims : gmap string Claim.t)
    (calls : list Call.t) (now_iso : string) :
  Forall (fun c => all_or_nothing (Call.write c) = true) calls ->
  Forall (fun c => Call.ok c = true -> codec_ok dumps loads (entry_of_call c)) calls ->
  let w := world_of (save_all dumps calls (World claims None)) in
  let written := List.filter Call.ok calls in
  exists ids : list Z,
    NoDup ids /\
    (forall z, In z ids <-> In z (map (fun c => User.id (Call.user_data c)) written)) /\
    web_stats loads true now_iso w =
      (inr (Stats.Build (List.length written) (List.length ids) (size claims) now_iso),
       w, []).
Proof.
  intros Hwhole Hcodec w written.
  pose proof (read_after_saves dumps loads claims calls Hwhole Hcodec) as Hread.
  cbv zeta in Hread. fold w written in Hread.
  destruct (user_id_set_entries written [] (NoDup_nil_2)) as (ids & Hrun & Hnd & Hin).
  cbn [map] in Hrun.
  exists ids. split; [exact Hnd | split].
  - intros z. rewrite Hin. cbn. tauto.
  - rewrite (web_stats_run loads true now_iso w _ [] Hread), Hrun.
    rewrite !length_map.
    destruct (save_all_frame dumps calls (World claims None)) as (_ & Hclaims & _).
    fold w in Hclaims. now rewrite Hclaims.
Qed.

Lemma web_stats_counts_witness :
  returned (web_stats MiniJson.loads true "2024-01-01T00:00:00"
              (world_of (save_all MiniJson.dumps
                           (three_calls ++ three_calls) empty_world))) =
    inr (Stats.Build 4 2 0 "2024-01-01T00:00:00").
Proof.
  destruct (web_stats_counts MiniJson.dumps MiniJson.loads ∅
              (three_calls ++ three_calls) "2024-01-01T00:00:00")
    as (ids & Hnd & Hin & Hrun).
  - repeat constructor.
  - repeat (constructor; [intros _; apply MiniJsonFacts.minijson_codec_ok |]).
    constructor.
  - cbv zeta in Hrun. unfold empty_world. rewrite Hrun. unfold returned. cbn [fst].
    do 2 f_equal.
    assert (Hlen : List.length ids = List.length [42%Z; 7%Z]); [| exact Hlen].
    apply Permutation.Permutation_length, Permutation.NoDup_Permutation.
    + apply NoDup_ListNoDup, Hnd.
    + repeat constructor; cbn; intuition discriminate.
    + intros z. rewrite Hin. cbn. intuition.
Defined.

(** ** The admin command and the export *)

Lemma str_of_int_not_placeholder (i : Z) :
  String.eqb (Text.str_of_int i) "YOUR_TELEGRAM_USER_ID" = false.
Proof.
  destruct (MiniJsonFacts.str_of_int_first i EmptyString) as (c & s & Hs & Hc).
  rewrite append_empty_r in Hs. rewrite Hs.
  apply String.eqb_neq. intros [= -> _].
  destruct Hc as [Hc | Hc]; discriminate Hc.
Qed.

(** X17. As the code stands nobody is an administrator: [ADMIN_IDS] holds
    a placeholder that is not the decimal text of any number, so
    [stats_command] answers every user with the refusal and does not read
    the history. *)
Theorem stats_command_denies_everyone loads (read_ok : bool) (user : User.t)
    (w : world) :
  stats_command loads read_ok user w = (inr AccessDenied, w, []).
Proof.
  unfold stats_command, ADMIN_IDS. cbn [existsb].
  now rewrite str_of_int_not_placeholder.
Qed.

Lemma csv_rows_concat py_str (emails : list json) (rows : list string)
    (csv_data : string) :
  Forall2 (fun e row => csv_row py_str e = inr row) emails rows ->
  csv_rows py_str emails csv_data =
    inr (csv_data +:+ fold_right String.append EmptyString rows).
Proof.
  intros Hrows. revert csv_data.
  induction Hrows as [|e row emails rows He _ IH]; intros csv_data;
    cbn [csv_rows fold_right].
  - now rewrite append_empty_r.
  - rewrite He, IH. now rewrite append_assoc.
Qed.

Lemma csv_rows_not_object py_str (emails : list json) (csv_data : string) :
  (exists e, In e emails /\ forall d, e <> JObj d) ->
  csv_rows py_str emails csv_data = inl AttributeError.
Proof.
  intros (e & Hin & Hnot). revert csv_data.
  induction emails as [|e' emails IH]; intros csv_data; [destruct Hin |].
  cbn [csv_rows]. destruct Hin as [-> | Hin].
  - destruct e; try reflexivity. now destruct (Hnot d).
  - destruct (csv_row py_str e') as [x|row] eqn:Hrow; [| now apply IH].
    destruct e'; cbn in Hrow; congruence.
Qed.

(** X18. The export is behind the password and nothing else: a request
    without the password, or with another one than [ADMIN_PASSWORD] (or
    than [admin123] when that variable is not set), gets the 401 answer
    and the history is not read. With the password the answer is the
    header followed by one row for each entry, in order, as long as every
    entry is an object; an entry that is not makes the route fail. *)
Theorem export_behind_password py_str loads (read_ok : bool)
    (password admin_password : option string) (w : world) :
  let r := download_emails py_str loads read_ok password admin_password w in
  (password <> Some (default "admin123" admin_password) ->
     r = (inr (JsonResponse (JObj [("error", JStr "Unauthorized")]) 401), w, [])) /\
  (password = Some (default "admin123" admin_password) ->
     world_of r = w /\
     forall emails,
       returned (get_all_emails loads read_ok w) = inr emails ->
       (forall rows,
          Forall2 (fun e row => csv_row py_str e = inr row) emails rows ->
          returned r =
            inr (CsvResponse (CSV_HEADER +:+ fold_right String.append EmptyString rows)
                             200)) /\
       ((exists e, In e emails /\ forall d, e <> JObj d) ->
          returned r = inl AttributeError)).
Proof.
  intros r. unfold r, download_emails. split.
  - intros Hwrong. destruct password as [given|]; [| reflexivity].
    destruct (String.eqb given (default "admin123" admin_password)) eqn:Heq;
      [| reflexivity].
    apply String.eqb_eq in Heq. congruence.
  - intros ->. rewrite String.eqb_refl. run.
    destruct (get_all_emails_result loads read_ok w) as (emails & trace & Hread).
    rewrite Hread. run. split.
    + now destruct (csv_rows py_str emails CSV_HEADER).
    + intros emails' [= <-]. split.
      * intros rows Hrows. now rewrite (csv_rows_concat py_str emails rows _ Hrows).
      * intros Hbad. now rewrite (csv_rows_not_object py_str emails _ Hbad).
Qed.

Lemma export_behind_password_witness :
  download_emails str_of_value MiniJson.loads true (Some "guess") None one_line_world =
    (inr (JsonResponse (JObj [("error", JStr "Unauthorized")]) 401), one_line_world, []) /\
  returned (download_emails str_of_value MiniJson.loads true (Some "admin123") None
              one_line_world) =
    inr (CsvResponse
           (CSV_HEADER +:+ "2024-01-01 00:00:00,a@b.co,42,alice,Alice,None"
                       +:+ String Text.LF EmptyString)
           200).
Proof.
  split.
  - apply (proj1 (export_behind_password str_of_value MiniJson.loads true
                    (Some "guess") None one_line_world)).
    discriminate.
  - destruct (proj2 (export_behind_password str_of_value MiniJson.loads true
                       (Some "admin123") None one_line_world) eq_refl)
      as [_ Hrows].
    destruct (Hrows [entry_of "2024-01-01 00:00:00" "a@b.co" alice]) as [Hcsv _].
    + vm_compute. reflexivity.
    + rewrite (Hcsv ["2024-01-01 00:00:00,a@b.co,42,alice,Alice,None"
                       +:+ String Text.LF EmptyString]).
      * reflexivity.
      * repeat constructor.
Defined.

(** ** From /start to the payout *)

(** X19. A user whom /start has just let in is not stopped by the 60
    second check: if /start prompts at some time and the text arrives no
    earlier, with nothing stored in between, the handler takes every text
    of the shape to FaucetPay. It replies with the processing notice and
    nothing else, makes the one request for the address, shows the
    message of the outcome and ends the conversation. *)
Theorem admitted_user_reaches_payout dumps (user : User.t) (now : Q) (w : world)
    (text : string) (env : Env.t) :
  start_command user now w = prompts user w ->
  (now <= Env.time_at_throttle env)%Q ->
  email_shape (Text.lower (Text.strip text)) ->
  let email := Text.lower (Text.strip text) in
  let r := handle_email dumps user text env w in
  returned r = inr END /\
  replies (trace_of r) = [Processing] /\
  posts (trace_of r) = [(CURRENCY, email, AMOUNT)] /\
  edits (trace_of r) = [final_message email (Env.payout env)].
Proof.
  intros Hprompt Hclock Hshape email r.
  assert (H : reaches_payout user text env w).
  { split.
    - now apply (handler_validates_shape text).
    - intros record Hrec.
      destruct (Qlt_le_dec (now - Claim.last_claim record) 86400) as [Hlt | Hle]; [| lra].
      rewrite (start_command_waiting user now w record Hrec Hlt) in Hprompt.
      discriminate Hprompt. }
  destruct (payout_outcome_classified dumps user text env w H) as (Hret & _ & Hreplies & Hedits).
  destruct (reaches_payout_posts dumps user text env w H) as [_ Hposts].
  repeat split; assumption.
Qed.

Lemma admitted_user_reaches_payout_witness :
  let r := handle_email MiniJson.dumps alice "a@b.co"
             (env_at 90000 (Responded declined)) claimed_world in
  replies (trace_of r) = [Processing] /\
  posts (trace_of r) = [(CURRENCY, "a@b.co", AMOUNT)] /\
  edits (trace_of r) =
    [TransactionFailed (JStr "The send destination does not belong to any user.")].
Proof.
  destruct (admitted_user_reaches_payout MiniJson.dumps alice 90000 claimed_world
              "a@b.co" (env_at 90000 (Responded declined)))
    as (_ & Hreplies & Hposts & Hedits).
  - reflexivity.
  - vm_compute. discriminate.
  - apply (handler_validates_shape "a@b.co"). reflexivity.
  - cbv zeta. split; [exact Hreplies | split; [exact Hposts | exact Hedits]].
Defined.

(** X20. What is paid is what is recorded: in a run that is answered with
    status 200 the one request goes to the address that is then stored in
    the record of the user, together with the time of storing. The line
    of the history is the entry with that address, the user's identity
    and the formatted date: it is at the end of the file when the write
    goes through, the file is as it was when it cannot be opened, and the
    part of the line that got through is at its end when the write is cut
    off. *)
Theorem paid_address_recorded dumps (user : User.t) (text : string)
    (env : Env.t) (w : world) :
  reaches_payout user text env w ->
  payout_success (Env.payout env) = true ->
  let email := Text.lower (Text.strip text) in
  let line := dumps (entry_of (Env.strftime_now env) email user)
              +:+ String Text.LF EmptyString in
  let r := handle_email dumps user text env w in
  posts (trace_of r) = [(CURRENCY, email, AMOUNT)] /\
  user_claims (world_of r) !! user_key user =
    Some (Claim.Build (Env.time_at_record env) email) /\
  (Env.write env = Written ->
     email_file (world_of r) = Some (default EmptyString (email_file w) +:+ line)) /\
  (Env.write env = NotOpened -> email_file (world_of r) = email_file w) /\
  (forall n, Env.write env = Interrupted n ->
     email_file (world_of r) =
       Some (default EmptyString (email_file w) +:+ Text.take n line)).
Proof.
  intros H Hs email line r.
  split; [now apply reaches_payout_posts |].
  unfold r. rewrite (record_after_success dumps user text env w H Hs).
  split; [apply lookup_after_success |].
  unfold world_after_success, file_after_save, written_line. cbn [email_file].
  split; [intros ->; reflexivity |].
  split; [intros ->; reflexivity |].
  intros n ->. reflexivity.
Qed.

Lemma paid_address_recorded_witness :
  let r := handle_email MiniJson.dumps alice " A@B.co "
             (env_disk_full 5000 (Responded sent)) one_line_world in
  posts (trace_of r) = [(CURRENCY, "a@b.co", AMOUNT)] /\
  user_claims (world_of r) !! "42" = Some (Claim.Build (5000 + 1) "a@b.co") /\
  email_file (world_of r) = Some (one_line_text +:+ Text.take 10 alice_line).
Proof.
  destruct (paid_address_recorded MiniJson.dumps alice " A@B.co "
              (env_disk_full 5000 (Responded sent)) one_line_world)
    as (Hpost & Hrec & _ & _ & Hcut).
  - split; [reflexivity |]. intros record Hr. vm_compute in Hr. discriminate Hr.
  - reflexivity.
  - cbv zeta. split; [exact Hpost | split; [exact Hrec |]].
    rewrite (Hcut 10%nat eq_refl). reflexivity.
Defined.

(** ** An append that is cut off *)

Lemma take_app_le (n : nat) (s rest : string) :
  (n <= String.length s)%nat -> Text.take n (s +:+ rest) = Text.take n s.
Proof.
  revert s. induction n as [|n IH]; intros s Hlen.
  - now destruct s.
  - destruct s as [|c s]; cbn in Hlen; [lia |].
    rewrite append_cons. cbn [Text.take]. now rewrite IH by lia.
Qed.

Lemma all_chars_take (p : ascii -> bool) (n : nat) (s : string) :
  Text.all_chars p s = true -> Text.all_chars p (Text.take n s) = true.
Proof.
  revert s. induction n as [|n IH]; intros s Hs; [now destruct s |].
  destruct s as [|c s]; [reflexivity |].
  cbn in Hs. apply andb_true_iff in Hs as [Hc Hs].
  cbn [Text.take Text.all_chars]. now rewrite Hc, IH.
Qed.

Lemma universal_newlines_plain (s : string) :
  Text.all_chars no_newline s = true -> Text.universal_newlines s = s.
Proof.
  induction s as [|c s IH]; intros Hs; [reflexivity |].
  cbn in Hs. apply andb_true_iff in Hs as [Hc Hs].
  unfold is_newline in Hc. apply negb_true_iff, orb_false_iff in Hc as [_ Hcr].
  cbn [Text.universal_newlines]. now rewrite Hcr, IH.
Qed.

Lemma split_lines_plain (s : string) :
  Text.all_chars no_newline s = true -> s <> EmptyString ->
  Text.split_lines s = [s].
Proof.
  induction s as [|c s IH]; intros Hs Hne; [congruence |].
  cbn in Hs. apply andb_true_iff in Hs as [Hc Hs].
  unfold is_newline in Hc. apply negb_true_iff, orb_false_iff in Hc as [Hlf _].
  cbn [Text.split_lines]. rewrite Hlf.
  destruct s as [|c' s]; [reflexivity |].
  now rewrite IH.
Qed.

(** The lines of a file whose last line is not finished. *)
Lemma readlines_unfinished (lines : list string) (part : string) :
  Forall (fun l => Text.all_chars no_newline l = true) lines ->
  Text.all_chars no_newline part = true -> part <> EmptyString ->
  Text.readlines (lines_text lines +:+ part) =
    map (fun l => l +:+ String Text.LF EmptyString) lines ++ [part].
Proof.
  intros Hlines Hpart Hne. unfold Text.readlines.
  induction Hlines as [|l lines Hl _ IH]; cbn [lines_text map app].
  - rewrite append_nil, (universal_newlines_plain _ Hpart).
    now apply split_lines_plain.
  - rewrite append_assoc, append_cons.
    rewrite (universal_newlines_app _ _ Hl), (split_lines_app _ _ Hl).
    now rewrite IH.
Qed.

(** X21. An append that is cut off can hide the history. When the file
    is made of the lines of earlier entries and the write of [save_email]
    is cut off inside the line, leaving a part that is not blank and does
    not load, [get_all_emails] returns the empty list and logs the error,
    where it returned the earlier entries before. The text of the earlier
    entries is still in the file, in front of the part. *)
Theorem cut_append_hides_history dumps loads (earlier : list json) (n : nat)
    (timestamp email : string) (user_data : User.t) (w : world) :
  let text := dumps (entry_of timestamp email user_data) in
  let part := Text.take n text in
  let w1 := world_of (save_email dumps (Interrupted n) timestamp email user_data w) in
  email_file w = Some (lines_text (map dumps earlier)) ->
  Forall (codec_ok dumps loads) earlier ->
  Text.all_chars no_newline text = true ->
  (n <= String.length text)%nat ->
  Text.strip part <> EmptyString ->
  loads (Text.strip part) = None ->
  returned (get_all_emails loads true w) = inr earlier /\
  email_file w1 = Some (lines_text (map dumps earlier) +:+ part) /\
  get_all_emails loads true w1 =
    (inr [], w1, [LogError (ErrorReadingEmails JSONDecodeError)]).
Proof.
  intros text part w1 Hfile Hearlier Htext Hn Hblank Hbad.
  assert (Hw1 : w1 = World (user_claims w)
                       (Some (lines_text (map dumps earlier) +:+ part))).
  { unfold w1, save_email, save_to_alternative, append_file. run.
    rewrite Hfile. cbn [default]. unfold part, text.
    now rewrite take_app_le. }
  split; [| split].
  - rewrite (get_all_emails_entries dumps loads w earlier); [reflexivity | | | exact Hearlier].
    + now rewrite Hfile.
    + rewrite Hfile. discriminate.
  - now rewrite Hw1.
  - rewrite Hw1. unfold get_all_emails. run. cbn [email_file].
    rewrite readlines_unfinished.
    + rewrite (load_lines_bad loads _ part); [reflexivity | | exact Hblank | exact Hbad].
      apply in_or_app. right. now left.
    + clear -Hearlier.
      induction Hearlier as [|v vs Hv _ IH]; constructor; [apply Hv | exact IH].
    + now apply all_chars_take.
    + intros Hempty. rewrite Hempty in Hblank. now apply Hblank.
Qed.

Lemma cut_append_hides_history_witness :
  let w1 := world_of (save_email MiniJson.dumps (Interrupted 10)
                        "2024-01-01 00:00:01" "b@b.co" bob one_line_world) in
  returned (get_all_emails MiniJson.loads true one_line_world) =
    inr [entry_of "2024-01-01 00:00:00" "a@b.co" alice] /\
  returned (get_all_emails MiniJson.loads true w1) = inr [].
Proof.
  destruct (cut_append_hides_history MiniJson.dumps MiniJson.loads
              [entry_of "2024-01-01 00:00:00" "a@b.co" alice] 10
              "2024-01-01 00:00:01" "b@b.co" bob one_line_world)
    as (Hbefore & _ & Hafter).
  - reflexivity.
  - constructor; [apply MiniJsonFacts.minijson_codec_ok | constructor].
  - vm_compute. reflexivity.
  - vm_compute. lia.
  - vm_compute. discriminate.
  - vm_compute. reflexivity.
  - cbv zeta. split; [exact Hbefore |]. now rewrite Hafter.
Defined.
